(** * Blackhole: the curvature-plot service of [simulation_api.py]

    A shallow embedding of the Flask service that evaluates the toy curvature
    field [Z = -mass / r] on a fixed 100x100 grid, draws it with matplotlib
    and returns the picture as a base64 data URI.

    Python floats and NumPy [float64] values are IEEE-754 binary64 numbers;
    they are modelled by Rocq's primitive floats, whose operations are the
    same correctly rounded binary64 operations. *)

From Stdlib Require Import ZArith NArith List Bool Ascii String Lia.
From Stdlib Require Import Floats.
Import ListNotations.

#[local] Set Warnings "-inexact-float".
Local Open Scope float_scope.

(** ** NumPy on binary64 *)

Module Np.

(** A one-dimensional [float64] array and a two-dimensional one (row major,
    as NumPy stores them). *)
Definition vec := list float.
Definition grid := list (list float).

(** [np.maximum(a, b)]: the element-wise maximum that propagates NaN
    (NumPy's loop: [isnan(a) ? a : (a > b ? a : b)]). *)
Definition maximum (a b : float) : float :=
  if is_nan a then a else if b <? a then a else b.

(** A small non-negative integer as a [float64], exactly. *)
Definition of_nat (n : nat) : float := of_uint63 (Uint63.of_Z (Z.of_nat n)).

(** [np.linspace(start, stop, num)] with the default [endpoint=True], as
    NumPy computes it: [arange(0, num) * step + start] with
    [step = (stop - start) / (num - 1)] (dividing first when the step is
    zero), and the last sample overwritten with [stop]. *)
Definition linspace (start stop : float) (num : nat) : vec :=
  let div := Nat.pred num in
  let delta := stop - start in
  let y := map of_nat (seq 0 num) in
  let y :=
    if Nat.ltb 0 div then
      let step := delta / of_nat div in
      if step =? 0 then map (fun v => v / of_nat div * delta) y
      else map (fun v => v * step) y
    else map (fun v => v * delta) y in
  let y := map (fun v => v + start) y in
  if Nat.ltb 1 num then removelast y ++ [stop] else y.

(** [np.meshgrid(x, y)] with the default [indexing='xy']: both results have
    [len(y)] rows and [len(x)] columns, [X[i][j] = x[j]], [Y[i][j] = y[i]]. *)
Definition meshgrid (x y : vec) : grid * grid :=
  (map (fun _ => x) y, map (fun yi => map (fun _ => yi) x) y).

(** Element-wise binary and unary operations on arrays of one shape. *)
Fixpoint zip_with (f : float -> float -> float) (a b : vec) : vec :=
  match a, b with
  | u :: a', v :: b' => f u v :: zip_with f a' b'
  | _, _ => []
  end.

Fixpoint zip_with2 (f : float -> float -> float) (a b : grid) : grid :=
  match a, b with
  | u :: a', v :: b' => zip_with f u v :: zip_with2 f a' b'
  | _, _ => []
  end.

Definition map2 (f : float -> float) (a : grid) : grid := map (map f) a.

(** [A ** 2] on an array is NumPy's squaring fast path, [A * A]. *)
Definition square (a : float) : float := a * a.

(** [A[i][j]]; out-of-range indices raise in NumPy, here they read as NaN and
    every statement below keeps its indices in range. *)
Definition get (a : grid) (i j : nat) : float := nth j (nth i a []) nan.

(** [A.shape == (r, c)]. *)
Definition has_shape (a : grid) (r c : nat) : Prop :=
  List.length a = r /\ Forall (fun row => List.length row = c) a.

End Np.

(** ** Module-level constants and the precomputed grid (lines 12-23) *)

Definition GRID_SIZE : nat := 100.
Definition GRID_MAX : float := 20.
Definition INITIAL_MASS : float := 10.0.
Definition CLIP_VALUE : float := -15.
Definition SPHERE_X : float := 12.0.
Definition SPHERE_Y : float := 5.0.
Definition EPSILON : float := 1e-6.

(** The module globals that the request pipeline reads. *)
Record Globals := mkGlobals {
  g_x : Np.vec;
  g_y : Np.vec;
  g_X : Np.grid;
  g_Y : Np.grid;
  g_R_base : Np.grid
}.

(** [R_base = np.sqrt(X**2 + Y**2) + 1e-6]. *)
Definition radial (X Y : Np.grid) : Np.grid :=
  Np.map2 (fun s => sqrt s + EPSILON)
          (Np.zip_with2 add (Np.map2 Np.square X) (Np.map2 Np.square Y)).

(** What the import of the module computes, once. *)
Definition module_globals : Globals :=
  let x := Np.linspace (- GRID_MAX) GRID_MAX GRID_SIZE in
  let y := Np.linspace (- GRID_MAX) GRID_MAX GRID_SIZE in
  let '(X, Y) := Np.meshgrid x y in
  mkGlobals x y X Y (radial X Y).

Definition X : Np.grid := g_X module_globals.
Definition Y : Np.grid := g_Y module_globals.
Definition R_base : Np.grid := g_R_base module_globals.

(** ** Field evaluation (lines 30-31 and 42-44) *)

(** [Z = -mass_value / R_base; Z_clipped = np.maximum(Z, CLIP_VALUE)]. *)
Definition curvature_raw (R : Np.grid) (mass_value : float) : Np.grid :=
  Np.map2 (fun r => - mass_value / r) R.

Definition curvature (R : Np.grid) (mass_value : float) : Np.grid :=
  Np.map2 (fun z => Np.maximum z CLIP_VALUE) (curvature_raw R mass_value).

Definition r_sphere : float :=
  sqrt (SPHERE_X * SPHERE_X + SPHERE_Y * SPHERE_Y) + EPSILON.

Definition z_sphere (mass_value : float) : float := - mass_value / r_sphere.

Definition z_sphere_clipped (mass_value : float) : float :=
  Np.maximum (z_sphere mass_value) CLIP_VALUE.


(** The spec's [max(a, b)], read as Python's builtin: the second operand when
    it is strictly larger, otherwise the first (so a NaN first operand is
    returned as it is). *)
Definition spec_max (a b : float) : float := if a <? b then b else a.

(** A radius the grid can hold: positive and finite. *)
Definition pos_finite (r : float) : bool := (0 <? r) && (r <? infinity).

(** A mass bound and a radius bound between which the quotient stays
    clear of underflow. *)
Definition MASS_BOUND : float := -1e-300.
Definition RADIUS_BOUND : float := 32.

(** A radius of the grid: positive and below the bound. *)
Definition small_radius (r : float) : bool := (0 <? r) && (r <? RADIUS_BOUND).

(** ** Bytes, exceptions and in-memory files *)

(** A Python [bytes] value. *)
Definition bytes := list ascii.

(** A raised exception, by the text [str(e)] gives. *)
Record exn := Exn { exn_str : string }.

Inductive outcome (A : Type) : Type :=
| Ret (a : A)
| Raise (e : exn).
Arguments Ret {A} a.
Arguments Raise {A} e.

(** [io.BytesIO]: the buffer and the stream position. *)
Module BytesIO.

Record t := mk { data : bytes; pos : nat }.

Definition new : t := mk [] 0.

(** [write] overwrites from the position on, zero-filling a gap. *)
Definition write (b : t) (bs : bytes) : t :=
  mk (firstn (pos b) (data b)
      ++ repeat Ascii.zero (pos b - List.length (data b))
      ++ bs
      ++ skipn (pos b + List.length bs) (data b))
     (pos b + List.length bs).

Definition seek (b : t) (p : nat) : t := mk (data b) p.

(** [read()] returns everything from the position to the end. *)
Definition read (b : t) : bytes * t :=
  (skipn (pos b) (data b), mk (data b) (Nat.max (pos b) (List.length (data b)))).

End BytesIO.

(** ** [base64.b64encode] (RFC 4648, standard alphabet, padded) *)

Module Base64.

Local Open Scope N_scope.

Definition alphabet : string :=
  "ABCDEFGHIJKLMNOPQRSTUVWXYZabcdefghijklmnopqrstuvwxyz0123456789+/".

Definition pad : ascii := "="%char.

(** The character of a sextet. *)
Definition char (n : N) : ascii :=
  match String.get (N.to_nat n) alphabet with
  | Some c => c
  | None => pad
  end.

Fixpoint b64encode (bs : bytes) : string :=
  match bs with
  | [] => EmptyString
  | [a] =>
      let x := N_of_ascii a in
      String (char (x / 4)) (String (char (x mod 4 * 16))
        (String pad (String pad EmptyString)))
  | [a; b] =>
      let x := N_of_ascii a in
      let y := N_of_ascii b in
      String (char (x / 4)) (String (char (x mod 4 * 16 + y / 16))
        (String (char (y mod 16 * 4)) (String pad EmptyString)))
  | a :: b :: c :: rest =>
      let x := N_of_ascii a in
      let y := N_of_ascii b in
      let z := N_of_ascii c in
      String (char (x / 4)) (String (char (x mod 4 * 16 + y / 16))
        (String (char (y mod 16 * 4 + z / 64)) (String (char (z mod 64))
          (b64encode rest))))
  end.

(** The sextet of a character of the alphabet. *)
Fixpoint index_from (c : ascii) (s : string) (k : N) : option N :=
  match s with
  | EmptyString => None
  | String d s' => if Ascii.eqb c d then Some k else index_from c s' (k + 1)
  end.

Definition index (c : ascii) : option N := index_from c alphabet 0.

(** A strict decoder: the inverse that shows the encoding loses nothing. *)
Fixpoint b64decode (s : string) : option bytes :=
  match s with
  | EmptyString => Some []
  | String c1 (String c2 (String c3 (String c4 rest))) =>
      match index c1, index c2 with
      | Some s1, Some s2 =>
          let a := ascii_of_N (s1 * 4 + s2 / 16) in
          match index c3, index c4 with
          | Some s3, Some s4 =>
              let b := ascii_of_N (s2 mod 16 * 16 + s3 / 4) in
              let c := ascii_of_N (s3 mod 4 * 64 + s4) in
              option_map (fun tl => a :: b :: c :: tl) (b64decode rest)
          | Some s3, None =>
              let b := ascii_of_N (s2 mod 16 * 16 + s3 / 4) in
              match rest with
              | EmptyString =>
                  if Ascii.eqb c4 pad && (s3 mod 4 =? 0) then Some [a; b] else None
              | _ => None
              end
          | None, _ =>
              match rest with
              | EmptyString =>
                  if Ascii.eqb c3 pad && Ascii.eqb c4 pad && (s2 mod 16 =? 0)
                  then Some [a] else None
              | _ => None
              end
          end
      | _, _ => None
      end
  | _ => None
  end.

End Base64.

(** ** Text: a Python [str] as its UTF-8 bytes

    The texts of a request (the keys and values of the query string) are
    held as the bytes of their UTF-8 encoding, one byte per character of a
    Rocq string, so an ASCII text is the string of its characters. *)

Module Utf8.

Local Open Scope N_scope.

(** A continuation byte, [10xxxxxx]. *)
Definition cont (b : N) : bool := (128 <=? b) && (b <? 192).

(** The code points of a byte string: shortest forms only, no surrogates,
    nothing above U+10FFFF; [None] when the bytes are no UTF-8. *)
Fixpoint decode (bs : list N) : option (list N) :=
  match bs with
  | [] => Some []
  | b0 :: r0 =>
      if b0 <? 128 then option_map (cons b0) (decode r0)
      else if b0 <? 192 then None
      else if b0 <? 224 then
        match r0 with
        | b1 :: r1 =>
            let cp := (b0 - 192) * 64 + (b1 - 128) in
            if cont b1 && (128 <=? cp)
            then option_map (cons cp) (decode r1) else None
        | _ => None
        end
      else if b0 <? 240 then
        match r0 with
        | b1 :: b2 :: r2 =>
            let cp := (b0 - 224) * 4096 + (b1 - 128) * 64 + (b2 - 128) in
            if cont b1 && cont b2 && (2048 <=? cp)
               && negb ((55296 <=? cp) && (cp <=? 57343))
            then option_map (cons cp) (decode r2) else None
        | _ => None
        end
      else if b0 <? 248 then
        match r0 with
        | b1 :: b2 :: b3 :: r3 =>
            let cp := (b0 - 240) * 262144 + (b1 - 128) * 4096
                      + (b2 - 128) * 64 + (b3 - 128) in
            if cont b1 && cont b2 && cont b3 && (65536 <=? cp)
               && (cp <=? 1114111)
            then option_map (cons cp) (decode r3) else None
        | _ => None
        end
      else None
  end.

(** The code points of a text. *)
Definition code_points (text : string) : option (list N) :=
  decode (map N_of_ascii (list_ascii_of_string text)).

End Utf8.

(** ** The builtin [float(str)]

    The callable [type=float] of the query-parameter lookup, as CPython runs
    it: the text is first brought to ASCII (Unicode white space becomes a
    space, Unicode decimal digits become ASCII digits, any other non-ASCII
    character ends the text with a question mark), underscores between
    digits are dropped, ASCII white space is stripped from both ends, and the
    rest is read as a decimal number, an infinity or a NaN. [None] stands for
    the [ValueError] that [float] raises. A text whose bytes are no UTF-8
    stands for no Python string; it is rejected (werkzeug decodes such bytes
    to U+FFFD, which [float] rejects). The two character tables are those of
    Unicode 14.0, which CPython 3.11 carries. *)

Module PyFloat.

Local Open Scope Z_scope.

Definition code (c : ascii) : Z := Z.of_N (N_of_ascii c).

(** [Py_UNICODE_ISSPACE] from U+007F on. *)
Definition unicode_spaces : list N :=
  [133; 160; 5760; 8192; 8193; 8194; 8195; 8196; 8197; 8198; 8199; 8200;
   8201; 8202; 8232; 8233; 8239; 8287; 12288]%N.

Definition is_unicode_space (cp : N) : bool := existsb (N.eqb cp) unicode_spaces.

(** The zero of every run of ten decimal digits (category Nd) above
    ASCII. *)
Definition decimal_zeros : list N :=
  [1632; 1776; 1984; 2406; 2534; 2662; 2790; 2918; 3046; 3174; 3302; 3430;
   3558; 3664; 3792; 3872; 4160; 4240; 6112; 6160; 6470; 6608; 6784; 6800;
   6992; 7088; 7232; 7248; 42528; 43216; 43264; 43472; 43504; 43600; 44016;
   65296; 66720; 68912; 69734; 69872; 69942; 70096; 70384; 70736; 70864;
   71248; 71360; 71472; 71904; 72016; 72784; 73040; 73120; 92768; 92864;
   93008; 120782; 120792; 120802; 120812; 120822; 123200; 123632; 125264;
   130032]%N.

(** [Py_UNICODE_TODECIMAL]: the value of a decimal digit. *)
Definition to_decimal (cp : N) : option N :=
  if ((48 <=? cp) && (cp <=? 57))%N then Some (cp - 48)%N
  else
    match find (fun z => (z <=? cp) && (cp <? z + 10))%N decimal_zeros with
    | Some z => Some (cp - z)%N
    | None => None
    end.

(** The loop of [_PyUnicode_TransformDecimalAndSpaceToASCII]. *)
Fixpoint transform (cps : list N) : list ascii :=
  match cps with
  | [] => []
  | ch :: r =>
      if (ch <? 127)%N then ascii_of_N ch :: transform r
      else if is_unicode_space ch then " "%char :: transform r
      else
        match to_decimal ch with
        | Some d => ascii_of_N (48 + d) :: transform r
        | None => ["?"%char]
        end
  end.

(** An ASCII string is returned as it is. *)
Definition to_ascii (cps : list N) : list ascii :=
  if forallb (fun ch => ch <? 128)%N cps then map ascii_of_N cps
  else transform cps.

(** ASCII white space, [Py_ISSPACE]: tab, line feed, vertical tab, form feed,
    carriage return and space. *)
Definition is_space (c : ascii) : bool :=
  ((9 <=? code c) && (code c <=? 13)) || (code c =? 32).

Definition is_digit (c : ascii) : bool := (48 <=? code c) && (code c <=? 57).

Definition is_underscore (c : ascii) : bool := code c =? 95.

Definition lower (c : ascii) : ascii :=
  if (65 <=? code c) && (code c <=? 90) then ascii_of_N (N_of_ascii c + 32) else c.

Fixpoint lstrip (s : list ascii) : list ascii :=
  match s with
  | c :: s' => if is_space c then lstrip s' else s
  | [] => []
  end.

Definition strip (s : list ascii) : list ascii := rev (lstrip (rev (lstrip s))).

(** Underscores may only stand between two digits; they are dropped. *)
Fixpoint drop_underscores (prev : ascii) (s : list ascii) : option (list ascii) :=
  match s with
  | [] => if is_underscore prev then None else Some []
  | c :: s' =>
      if is_underscore c then
        if is_digit prev then drop_underscores c s' else None
      else if is_underscore prev && negb (is_digit c) then None
      else option_map (cons c) (drop_underscores c s')
  end.

(** A run of decimal digits: the number read so far, how many digits were
    read, and the text left. *)
Fixpoint digits (s : list ascii) (acc : Z) (n : Z) : Z * Z * list ascii :=
  match s with
  | c :: s' => if is_digit c then digits s' (10 * acc + (code c - 48)) (n + 1)
               else (acc, n, s)
  | [] => (acc, n, s)
  end.

(** An optional sign: [true] for minus. *)
Definition sign (s : list ascii) : bool * list ascii :=
  match s with
  | c :: s' => if code c =? 45 then (true, s')
               else if code c =? 43 then (false, s') else (false, s)
  | [] => (false, s)
  end.

(** [digits [. digits] [(e|E) [sign] digits]] with at least one digit in the
    mantissa: the integer mantissa and the decimal exponent. *)
Definition number (s : list ascii) : option (Z * Z) :=
  let '(ip, ni, r1) := digits s 0 0 in
  let '(m, nf, r2) :=
    match r1 with
    | c :: r => if code c =? 46 then digits r ip 0 else (ip, 0, r1)
    | [] => (ip, 0, r1)
    end in
  if ni + nf =? 0 then None
  else
    match r2 with
    | [] => Some (m, - nf)
    | c :: r =>
        if code (lower c) =? 101 then
          let '(neg, r3) := sign r in
          match digits r3 0 0 with
          | (e, ne, []) =>
              if ne =? 0 then None
              else Some (m, (if neg then - e else e) - nf)
          | _ => None
          end
        else None
    end.

(** [m * 10^e] rounded to the nearest binary64, ties to even. *)
Definition round_decimal (neg : bool) (m e : Z) : spec_float :=
  match m with
  | Zpos p =>
      if 0 <=? e then binary_round prec emax neg (p * Z.to_pos (10 ^ e)) 0
      else
        let '(q, e', l) :=
          SFdiv_core_binary prec emax (Zpos p) 0 (10 ^ (- e)) 0 in
        binary_round_aux prec emax neg q e' l
  | _ => S754_zero neg
  end.

(** The number that an ASCII text denotes. *)
Definition float_of_ascii (text : list ascii) : option float :=
  match drop_underscores Ascii.zero text with
  | None => None
  | Some s =>
      let '(neg, body) := sign (strip s) in
      let word := string_of_list_ascii (map lower body) in
      if String.eqb word "inf" || String.eqb word "infinity" then
        Some (if neg then neg_infinity else infinity)
      else if String.eqb word "nan" then Some nan
      else
        match number body with
        | Some (m, e) => Some (SF2Prim (round_decimal neg m e))
        | None => None
        end
  end.

Definition py_float (text : string) : option float :=
  match Utf8.code_points text with
  | None => None
  | Some cps => float_of_ascii (to_ascii cps)
  end.

End PyFloat.

(** ** What matplotlib is asked to draw *)

(** A piece of an f-string: literal text, or a float formatted with
    [{:.nf}]. *)
Inductive fragment :=
| Lit (s : string)
| Fixed (decimals : nat) (v : float).

(** The arguments of [ax.plot_surface]. *)
Record Surface := mkSurface {
  s_X : Np.grid;
  s_Y : Np.grid;
  s_Z : Np.grid;
  s_cmap : string;
  s_linewidth : float;
  s_antialiased : bool;
  s_rstride : nat;
  s_cstride : nat
}.

(** The arguments of [ax.plot]. *)
Record Line := mkLine {
  l_xs : list float;
  l_ys : list float;
  l_zs : list float;
  l_fmt : string;
  l_markersize : float;
  l_color : string;
  l_label : string
}.

(** A 3D axes and what was put on it. *)
Record Axes := mkAxes {
  ax_position : nat;
  ax_projection : string;
  ax_surfaces : list Surface;
  ax_lines : list Line;
  ax_title : list fragment;
  ax_xlabel : string;
  ax_ylabel : string;
  ax_zlabel : string;
  ax_zlim : option (float * float);
  ax_legend : bool
}.

Record Figure := mkFigure {
  fig_size : float * float;
  fig_axes : list Axes
}.

Definition new_axes (position : nat) (projection : string) : Axes :=
  mkAxes position projection [] [] [] EmptyString EmptyString EmptyString
         None false.

Definition plot_surface (s : Surface) (a : Axes) : Axes :=
  mkAxes (ax_position a) (ax_projection a) (ax_surfaces a ++ [s]) (ax_lines a) (ax_title a)
         (ax_xlabel a) (ax_ylabel a) (ax_zlabel a) (ax_zlim a) (ax_legend a).

Definition plot (l : Line) (a : Axes) : Axes :=
  mkAxes (ax_position a) (ax_projection a) (ax_surfaces a) (ax_lines a ++ [l]) (ax_title a)
         (ax_xlabel a) (ax_ylabel a) (ax_zlabel a) (ax_zlim a) (ax_legend a).

Definition set_title (t : list fragment) (a : Axes) : Axes :=
  mkAxes (ax_position a) (ax_projection a) (ax_surfaces a) (ax_lines a) t
         (ax_xlabel a) (ax_ylabel a) (ax_zlabel a) (ax_zlim a) (ax_legend a).

Definition set_xlabel (t : string) (a : Axes) : Axes :=
  mkAxes (ax_position a) (ax_projection a) (ax_surfaces a) (ax_lines a) (ax_title a)
         t (ax_ylabel a) (ax_zlabel a) (ax_zlim a) (ax_legend a).

Definition set_ylabel (t : string) (a : Axes) : Axes :=
  mkAxes (ax_position a) (ax_projection a) (ax_surfaces a) (ax_lines a) (ax_title a)
         (ax_xlabel a) t (ax_zlabel a) (ax_zlim a) (ax_legend a).

Definition set_zlabel (t : string) (a : Axes) : Axes :=
  mkAxes (ax_position a) (ax_projection a) (ax_surfaces a) (ax_lines a) (ax_title a)
         (ax_xlabel a) (ax_ylabel a) t (ax_zlim a) (ax_legend a).

Definition set_zlim (lo hi : float) (a : Axes) : Axes :=
  mkAxes (ax_position a) (ax_projection a) (ax_surfaces a) (ax_lines a) (ax_title a)
         (ax_xlabel a) (ax_ylabel a) (ax_zlabel a) (Some (lo, hi)) (ax_legend a).

Definition legend (a : Axes) : Axes :=
  mkAxes (ax_position a) (ax_projection a) (ax_surfaces a) (ax_lines a) (ax_title a)
         (ax_xlabel a) (ax_ylabel a) (ax_zlabel a) (ax_zlim a) true.

(** ** The process state and the monad of a request *)

(** What a request can change and what the handler itself writes: the
    module globals, pyplot's registry of open figures (figure number to
    figure, the most recent first), the lines the handler printed on stdout,
    and the tracebacks that [traceback.print_exc] printed on stderr. What
    else reaches the streams (the warnings that pyplot prints on the
    twenty-first open figure and NumPy on an overflow, the server's log) is
    no part of this state. *)
Record World := mkWorld {
  globals : Globals;
  figs : list (nat * Figure);
  stdout : list string;
  tracebacks : list exn
}.

(** A computation that may raise; the state survives the exception. *)
Definition M (A : Type) : Type := World -> outcome A * World.

Definition ret {A} (a : A) : M A := fun w => (Ret a, w).

Definition raise {A} (e : exn) : M A := fun w => (Raise e, w).

Definition bind {A B} (c : M A) (k : A -> M B) : M B :=
  fun w =>
    match c w with
    | (Ret a, w') => k a w'
    | (Raise e, w') => (Raise e, w')
    end.

(** [try: c except Exception as e: h e]. *)
Definition try_except {A} (c : M A) (h : exn -> M A) : M A :=
  fun w =>
    match c w with
    | (Ret a, w') => (Ret a, w')
    | (Raise e, w') => h e w'
    end.

Declare Scope py_scope.
Delimit Scope py_scope with py.
Notation "x <- c ;; k" := (bind c (fun x => k))
  (at level 61, c at next level, right associativity) : py_scope.
Notation "c ;; k" := (bind c (fun _ => k))
  (at level 61, right associativity) : py_scope.

Definition read_globals : M Globals := fun w => (Ret (globals w), w).

Definition set_figs (w : World) (fs : list (nat * Figure)) : World :=
  mkWorld (globals w) fs (stdout w) (tracebacks w).

(** [print(text)]. *)
Definition print (text : string) : M unit :=
  fun w => (Ret tt, mkWorld (globals w) (figs w) (stdout w ++ [text]) (tracebacks w)).

(** [traceback.print_exc()] inside the handler of [e]. *)
Definition traceback_print_exc (e : exn) : M unit :=
  fun w => (Ret tt, mkWorld (globals w) (figs w) (stdout w) (tracebacks w ++ [e])).

(** *** pyplot *)

(** The next figure number: one more than the largest one open. *)
Definition next_num (fs : list (nat * Figure)) : nat :=
  S (fold_right Nat.max 0%nat (map fst fs)).

Fixpoint lookup_fig (n : nat) (fs : list (nat * Figure)) : option Figure :=
  match fs with
  | [] => None
  | (k, f) :: fs' => if Nat.eqb k n then Some f else lookup_fig n fs'
  end.

Fixpoint update_fig (n : nat) (g : Figure -> Figure) (fs : list (nat * Figure))
  : list (nat * Figure) :=
  match fs with
  | [] => []
  | (k, f) :: fs' =>
      if Nat.eqb k n then (k, g f) :: fs' else (k, f) :: update_fig n g fs'
  end.

Definition remove_fig (n : nat) (fs : list (nat * Figure)) : list (nat * Figure) :=
  filter (fun kf => negb (Nat.eqb (fst kf) n)) fs.

(** [plt.figure(figsize=size)]: a new figure, registered under the next
    number; the handle is that number. (With twenty figures already open
    pyplot also prints a warning on stderr; see [World].) *)
Definition plt_figure (size : float * float) : M nat :=
  fun w =>
    let n := next_num (figs w) in
    (Ret n, set_figs w ((n, mkFigure size []) :: figs w)).

(** [fig.add_subplot(position, projection=p)]: the handle of the new axes is
    the figure's number and the index of the axes in the figure. *)
Definition add_subplot (fig : nat) (position : nat) (projection : string)
  : M (nat * nat) :=
  fun w =>
    let k := match lookup_fig fig (figs w) with
             | Some f => List.length (fig_axes f)
             | None => 0%nat
             end in
    (Ret (fig, k),
     set_figs w (update_fig fig
                   (fun f => mkFigure (fig_size f)
                                      (fig_axes f ++ [new_axes position projection]))
                   (figs w))).

Fixpoint update_nth {A} (k : nat) (g : A -> A) (l : list A) : list A :=
  match l, k with
  | [], _ => []
  | a :: l', O => g a :: l'
  | a :: l', S k' => a :: update_nth k' g l'
  end.

(** A drawing call on an axes: the figure in the registry is changed in
    place. *)
Definition on_axes (ax : nat * nat) (g : Axes -> Axes) : M unit :=
  fun w =>
    (Ret tt,
     set_figs w (update_fig (fst ax)
                   (fun f => mkFigure (fig_size f) (update_nth (snd ax) g (fig_axes f)))
                   (figs w))).

(** [plt.close(fig)]: the figure leaves the registry. *)
Definition plt_close (fig : nat) : M unit :=
  fun w => (Ret tt, set_figs w (remove_fig fig (figs w))).

(** ** The request pipeline and the endpoint (lines 26-99) *)

(** The JSON values that [jsonify] receives here, and an HTTP response. *)
Inductive jvalue :=
| JString (s : string)
| JNumber (v : float).

(** A JSON object: its fields in order. *)
Definition json := list (string * jvalue).

Record Response := mkResponse {
  status_code : nat;
  body : json
}.

(** [jsonify(obj)]: a response with status 200. *)
Definition jsonify (obj : json) : Response := mkResponse 200 obj.

(** The parsed query string, [request.args]. *)
Record Request := mkRequest { args : list (string * string) }.

Fixpoint first_value (key : string) (l : list (string * string)) : option string :=
  match l with
  | [] => None
  | (k, v) :: l' => if String.eqb k key then Some v else first_value key l'
  end.

(** [MultiDict.get(key, default, type)]: the default when the key is absent,
    and also when the conversion raises [ValueError]. *)
Definition args_get {A} (l : list (string * string)) (key : string) (default : A)
  (type : string -> option A) : A :=
  match first_value key l with
  | None => default
  | Some rv =>
      match type rv with
      | Some v => v
      | None => default
      end
  end.

Definition DATA_URI_PREFIX : string := "data:image/png;base64,".

Section Pipeline.

(** matplotlib's renderer and PNG writer, as [fig.savefig] calls them with
    the format and the bounding-box option: the PNG bytes, or an
    exception. *)
Variable print_figure : Figure -> string -> string -> outcome bytes.

(** [fig.savefig(buf, format=fmt, bbox_inches=bbox)]; a closed figure can
    still be saved. *)
Definition savefig (fig : nat) (buf : BytesIO.t) (fmt bbox : string) : M BytesIO.t :=
  fun w =>
    let f := match lookup_fig fig (figs w) with
             | Some f => f
             | None => mkFigure (0, 0)%float []
             end in
    match print_figure f fmt bbox with
    | Ret png => (Ret (BytesIO.write buf png), w)
    | Raise e => (Raise e, w)
    end.

Local Open Scope py_scope.
Local Open Scope string_scope.

Definition generate_plot_image (mass_value : float) : M string :=
  g <- read_globals ;;
  let Z := curvature_raw (g_R_base g) mass_value in
  let Z_clipped := Np.map2 (fun z => Np.maximum z CLIP_VALUE) Z in
  fig <- plt_figure (8, 6)%float ;;
  ax <- add_subplot fig 111 "3d" ;;
  on_axes ax (plot_surface
                (mkSurface (g_X g) (g_Y g) Z_clipped "plasma" 0 true 2 2)) ;;
  let r_sphere := (sqrt (SPHERE_X * SPHERE_X + SPHERE_Y * SPHERE_Y) + EPSILON)%float in
  let z_sphere := (- mass_value / r_sphere)%float in
  let z_sphere_clipped := Np.maximum z_sphere CLIP_VALUE in
  on_axes ax (plot (mkLine [SPHERE_X] [SPHERE_Y] [z_sphere_clipped]
                           "o" 8 "cyan" "Test Particle")) ;;
  on_axes ax (set_title [Lit "Spacetime Curvature (Mass = ";
                         Fixed 1 mass_value; Lit ")"]) ;;
  on_axes ax (set_xlabel "Space (x)") ;;
  on_axes ax (set_ylabel "Space (y)") ;;
  on_axes ax (set_zlabel "Curvature (z)") ;;
  on_axes ax (set_zlim CLIP_VALUE 5) ;;
  on_axes ax legend ;;
  let buf := BytesIO.new in
  buf <- savefig fig buf "png" "tight" ;;
  let buf := BytesIO.seek buf 0 in
  let image_base64 := Base64.b64encode (fst (BytesIO.read buf)) in
  plt_close fig ;;
  ret (DATA_URI_PREFIX ++ image_base64).

Definition simulation_endpoint (req : Request) : M Response :=
  try_except
    (let mass := args_get (args req) "mass" INITIAL_MASS PyFloat.py_float in
     image_data <- generate_plot_image mass ;;
     ret (jsonify [("status", JString "success");
                   ("mass_used", JNumber mass);
                   ("image_data", JString image_data)]))
    (fun e =>
       print ("Error during plot generation: " ++ exn_str e) ;;
       traceback_print_exc e ;;
       ret (mkResponse 500 [("status", JString "error");
                            ("message", JString (exn_str e))])).

(** The server answers the requests one after the other, on the state the
    previous one left. A handler that raised would be answered by Flask's
    own error page; [simulation_endpoint] never does. *)
Fixpoint serve (reqs : list Request) (w : World) : list (outcome Response) * World :=
  match reqs with
  | [] => ([], w)
  | req :: reqs' =>
      let '(r, w') := simulation_endpoint req w in
      let '(rs, w'') := serve reqs' w' in
      (r :: rs, w'')
  end.

End Pipeline.

(** The state in which the first request is served: the module has been
    imported, no figure is open, the handler has printed nothing. *)
Definition initial_world : World := mkWorld module_globals [] [] [].

(** The figure that a request for [mass_value] hands to the renderer. *)
Definition drawn_figure (g : Globals) (mass_value : float) : Figure :=
  mkFigure (8, 6)%float
    [mkAxes 111 "3d"
       [mkSurface (g_X g) (g_Y g) (curvature (g_R_base g) mass_value)
                  "plasma" 0 true 2 2]
       [mkLine [SPHERE_X] [SPHERE_Y] [z_sphere_clipped mass_value]
               "o" 8 "cyan" "Test Particle"]
       [Lit "Spacetime Curvature (Mass = "; Fixed 1 mass_value; Lit ")"]
       "Space (x)" "Space (y)" "Curvature (z)"
       (Some (CLIP_VALUE, 5%float)) true].

(** ** Auxiliary definitions for the statements below *)

(** A value that is a signed zero, a signed finite number or a signed
    infinity of sign [s]: what a quotient of such values is. *)
Definition signed (s : bool) (x : spec_float) : Prop :=
  match x with
  | S754_zero s' | S754_infinity s' | S754_finite s' _ _ => s' = s
  | S754_nan => False
  end.

(** The same, a zero of either sign allowed. *)
Definition signed_or_zero (s : bool) (x : spec_float) : Prop :=
  match x with
  | S754_zero _ => True
  | _ => signed s x
  end.

(** The magnitude class of a finite value: digits of the mantissa plus the
    exponent. *)
Definition magnitude (m : positive) (e : Z) : Z := (Zdigits2 (Zpos m) + e)%Z.

(** A predicate on every element, and a shape, as checks that compute. *)
Definition all2 (p : float -> bool) (a : Np.grid) : bool :=
  forallb (forallb p) a.

Definition shape_ok (a : Np.grid) (r c : nat) : bool :=
  Nat.eqb (List.length a) r && forallb (fun row => Nat.eqb (List.length row) c) a.

(** The sixty-four sextets. *)
Definition sextets : list N := map N.of_nat (seq 0 64).

(** The mass a request asks for. *)
Definition requested_mass (req : Request) : float :=
  args_get (args req) "mass" INITIAL_MASS PyFloat.py_float.

Definition success_response (mass : float) (png : bytes) : Response :=
  mkResponse 200 [("status", JString "success"); ("mass_used", JNumber mass);
                  ("image_data",
                   JString (DATA_URI_PREFIX ++ Base64.b64encode png))]%string.

Definition error_response (e : exn) : Response :=
  mkResponse 500 [("status", JString "error");
                  ("message", JString (exn_str e))]%string.

(** The state after a request whose rendering raised [e]: the figure is
    still registered, the message and the traceback were printed. *)
Definition world_after_error (w : World) (mass : float) (e : exn) : World :=
  mkWorld (globals w)
          ((next_num (figs w), drawn_figure (globals w) mass) :: figs w)
          (stdout w ++ [("Error during plot generation: " ++ exn_str e)%string])
          (tracebacks w ++ [e]).

(** ** Renderers to run the pipeline with

    The PNG signature stands for the picture. *)
Definition png_signature : bytes :=
  map ascii_of_nat [137; 80; 78; 71; 13; 10; 26; 10]%nat.

Definition sample_renderer (f : Figure) (fmt bbox : string) : outcome bytes :=
  Ret png_signature.

(** A renderer that cannot allocate its canvas. *)
Definition failing_renderer (f : Figure) (fmt bbox : string) : outcome bytes :=
  Raise (Exn "cannot allocate the canvas").

(** The value of a field of a JSON object. *)
Fixpoint field (key : string) (o : json) : option jvalue :=
  match o with
  | [] => None
  | (k, v) :: o' => if String.eqb k key then Some v else field key o'
  end.

Definition message_of (r : Response) : string :=
  match field "message" (body r) with
  | Some (JString s) => s
  | _ => EmptyString
  end.

(** An error answer as the spec's end-to-end test reads it: a 4xx or 5xx
    status and a non-empty message field. *)
Definition is_error_response (r : Response) : bool :=
  Nat.leb 400 (status_code r) && Nat.ltb (status_code r) 600
  && negb (String.eqb (message_of r) EmptyString).

(** ** Auxiliary definitions for the further properties *)

(** The sample positions of the grid axis, [x] (and [y], which is the same
    vector). *)
Definition x_axis : Np.vec := g_x module_globals.

(** Every earlier sample is strictly below every later one. *)
Definition increasing (v : Np.vec) : bool :=
  forallb (fun i =>
             forallb (fun j => if Nat.ltb i j then nth i v nan <? nth j v nan
                               else true)
                     (seq 0 (List.length v)))
          (seq 0 (List.length v)).

Definition within (lo hi : float) (v : float) : bool := (lo <=? v) && (v <=? hi).

(** The radii of the grid lie strictly between these two numbers. *)
Definition R_MIN : float := 0.2857.
Definition R_MAX : float := 28.2843.

Definition grid_radius (r : float) : bool := (R_MIN <? r) && (r <? R_MAX).

(** From this mass on the whole surface lies on the floor. *)
Definition SATURATION_MASS : float := 512.

(** Whether the rendering of a request returns, and how many requests of a
    sequence fail to render. *)
Definition renders (print_figure : Figure -> string -> string -> outcome bytes)
  (g : Globals) (req : Request) : bool :=
  match print_figure (drawn_figure g (requested_mass req))
                     "png"%string "tight"%string with
  | Ret _ => true
  | Raise _ => false
  end.

Definition failures (print_figure : Figure -> string -> string -> outcome bytes)
  (g : Globals) (reqs : list Request) : nat :=
  List.length (filter (fun req => negb (renders print_figure g req)) reqs).

(** The entries of a query string that the endpoint looks at. *)
Definition is_mass (kv : string * string) : bool := String.eqb (fst kv) "mass"%string.

(** A character that base64 text may hold: one of the alphabet, or the
    padding sign. *)
Definition b64_char (c : ascii) : bool :=
  match Base64.index c with
  | Some _ => true
  | None => Ascii.eqb c Base64.pad
  end.

(** An ASCII text without any digit, and a text none of whose characters
    is a decimal digit of any script. *)
Definition no_digit (s : list ascii) : Prop :=
  Forall (fun c => PyFloat.is_digit c = false) s.

Definition no_decimal_digit (text : string) : Prop :=
  forall cps, Utf8.code_points text = Some cps ->
              Forall (fun ch => PyFloat.to_decimal ch = None) cps.

(** ** Facts on binary64 arithmetic, through [Prim2SF] *)

Section FloatFacts.

Lemma Prim2SF_zero : Prim2SF 0 = S754_zero false.
Proof. reflexivity. Qed.

Lemma Prim2SF_infinity : Prim2SF infinity = S754_infinity false.
Proof. reflexivity. Qed.

Lemma Prim2SF_clip : Prim2SF CLIP_VALUE = S754_finite true 8444249301319680 (-49).
Proof. reflexivity. Qed.

Lemma iter_pos_shr_1_nonneg (p : positive) (mrs : shr_record) :
  (0 <= shr_m mrs)%Z -> (0 <= shr_m (iter_pos shr_1 p mrs))%Z.
Proof.
  revert mrs. induction p as [p IH | p IH |]; intros mrs H; simpl.
  - apply IH, IH. destruct mrs as [[|[q|q|]|q] r s]; simpl in *; lia.
  - apply IH, IH, H.
  - destruct mrs as [[|[q|q|]|q] r s]; simpl in *; lia.
Qed.

Lemma shr_fexp_nonneg (m e : Z) (l : location) :
  (0 <= m)%Z -> (0 <= shr_m (fst (shr_fexp prec emax m e l)))%Z.
Proof.
  intros H. unfold shr_fexp, shr.
  assert (H0 : (0 <= shr_m (shr_record_of_loc m l))%Z)
    by (destruct l as [|[| |]]; exact H).
  destruct (fexp prec emax (Zdigits2 m + e) - e)%Z; simpl; auto.
  now apply iter_pos_shr_1_nonneg.
Qed.

Lemma round_nearest_even_nonneg (m : Z) (l : location) :
  (0 <= m)%Z -> (0 <= round_nearest_even m l)%Z.
Proof.
  intros H. destruct l as [|[| |]]; simpl; try lia.
  destruct (Z.even m); lia.
Qed.

Lemma binary_round_aux_signed (s : bool) (m e : Z) (l : location) :
  (0 <= m)%Z -> signed s (binary_round_aux prec emax s m e l).
Proof.
  intros H. unfold binary_round_aux.
  pose proof (shr_fexp_nonneg m e l H) as H1.
  destruct (shr_fexp prec emax m e l) as [mrs' e']. simpl in H1.
  pose proof (shr_fexp_nonneg _ e' loc_Exact
                (round_nearest_even_nonneg _ (loc_of_shr_record mrs') H1)) as H2.
  destruct (shr_fexp prec emax _ e' loc_Exact) as [mrs'' e'']. simpl in H2.
  destruct (shr_m mrs'') as [|q|q]; simpl; auto; try lia.
  match goal with |- context [if ?c then _ else _] => destruct c end;
    reflexivity.
Qed.

Lemma SFdiv_core_nonneg (m1 m2 : positive) (e1 e2 : Z) :
  (0 <= fst (fst (SFdiv_core_binary prec emax (Zpos m1) e1 (Zpos m2) e2)))%Z.
Proof.
  unfold SFdiv_core_binary.
  set (s := (e1 - e2 - _)%Z).
  set (m' := match s with Zpos _ => _ | Z0 => _ | Zneg _ => _ end).
  assert (Hm : (0 <= m')%Z).
  { subst m'. destruct s; try lia. apply Z.shiftl_nonneg. lia. }
  pose proof (Z.div_pos m' (Zpos m2) Hm ltac:(lia)) as Hq.
  unfold Z.div in Hq. destruct (Z.div_eucl m' (Zpos m2)) as [q r]. exact Hq.
Qed.

(** The sign rule of division by a finite non-zero divisor. *)
Lemma SFdiv_signed (s : bool) (x : spec_float) (my : positive) (ey : Z) :
  signed s x -> signed s (SF64div x (S754_finite false my ey)).
Proof.
  destruct x as [sx|sx| |sx mx ex]; simpl; intros H; try contradiction; subst.
  - now destruct s.
  - now destruct s.
  - pose proof (SFdiv_core_nonneg mx my ex ey) as Hq.
    destruct (SFdiv_core_binary prec emax (Zpos mx) ex (Zpos my) ey) as [[q e] l].
    simpl in Hq. replace (xorb s false) with s by now destruct s.
    now apply binary_round_aux_signed.
Qed.

Lemma signed_signed_or_zero (s : bool) (x : spec_float) :
  signed s x -> signed_or_zero s x.
Proof. now destruct x. Qed.

Lemma SFdiv_signed_or_zero (s : bool) (x : spec_float) (my : positive) (ey : Z) :
  signed_or_zero s x -> signed_or_zero s (SF64div x (S754_finite false my ey)).
Proof.
  destruct x as [sx|sx| |sx mx ex]; intros H.
  - exact I.
  - now apply signed_signed_or_zero, SFdiv_signed.
  - contradiction.
  - now apply signed_signed_or_zero, SFdiv_signed.
Qed.

Lemma pos_finite_spec (r : float) :
  pos_finite r = true -> exists m e, Prim2SF r = S754_finite false m e.
Proof.
  unfold pos_finite. rewrite andb_true_iff, !ltb_spec, Prim2SF_zero, Prim2SF_infinity.
  destruct (Prim2SF r) as [s|[|]| |[|] m e]; simpl; intros [H1 H2];
    try discriminate; eauto.
Qed.

End FloatFacts.

(** ** Comparisons against the clip value and the sign of a quotient *)

Section ClipFacts.

Lemma SFcompare_antisym (x y : spec_float) :
  SFcompare y x = option_map CompOpp (SFcompare x y).
Proof.
  destruct x as [sx|sx| |sx mx ex], y as [sy|sy| |sy my ey]; simpl;
    try reflexivity;
    try (destruct sx; reflexivity); try (destruct sy; reflexivity);
    try (destruct sx, sy; reflexivity).
  destruct sx, sy; simpl; try reflexivity;
    rewrite (Z.compare_antisym ex ey);
    destruct (ex ?= ey)%Z; simpl; try reflexivity;
    rewrite (Pos.compare_cont_antisym mx my Eq); simpl;
    destruct (Pos.compare_cont Eq mx my); reflexivity.
Qed.

Lemma SFcompare_Eq_finite (x : spec_float) (s : bool) (m : positive) (e : Z) :
  SFcompare x (S754_finite s m e) = Some Eq -> x = S754_finite s m e.
Proof.
  destruct x as [sx|sx| |sx mx ex]; simpl;
    try (destruct sx; discriminate); try (destruct s; discriminate);
    try discriminate.
  destruct sx, s; try discriminate;
    destruct (ex ?= e)%Z eqn:He; try discriminate;
    apply Z.compare_eq in He; subst;
    intros H; injection H as H.
  - destruct (Pos.compare_cont Eq mx m) eqn:Hm; try discriminate.
    apply Pos.compare_eq in Hm. now subst.
  - apply Pos.compare_eq in H. now subst.
Qed.

Lemma SFcompare_None_finite (x : spec_float) (s : bool) (m : positive) (e : Z) :
  SFcompare x (S754_finite s m e) = None -> x = S754_nan.
Proof.
  destruct x as [sx|sx| |sx mx ex]; simpl; try reflexivity; discriminate.
Qed.

Lemma is_nan_spec (a : float) :
  is_nan a = match Prim2SF a with S754_nan => true | _ => false end.
Proof.
  unfold is_nan. rewrite eqb_spec. unfold SFeqb.
  destruct (Prim2SF a) as [s|s| |s m e]; simpl; try reflexivity;
    try (destruct s; reflexivity).
  destruct s; rewrite Z.compare_refl, Pos.compare_cont_refl; reflexivity.
Qed.

(** NumPy's NaN-propagating maximum against the clip value is the spec's
    [max]. *)
Lemma maximum_clip_spec_max (a : float) :
  Np.maximum a CLIP_VALUE = spec_max a CLIP_VALUE.
Proof.
  unfold Np.maximum, spec_max.
  rewrite is_nan_spec, !ltb_spec. unfold SFltb.
  rewrite (SFcompare_antisym (Prim2SF a) (Prim2SF CLIP_VALUE)).
  destruct (SFcompare (Prim2SF a) (Prim2SF CLIP_VALUE)) as [[| |]|] eqn:Hc; simpl.
  - rewrite Prim2SF_clip in Hc. apply SFcompare_Eq_finite in Hc.
    rewrite <- Prim2SF_clip in Hc. apply Prim2SF_inj in Hc. rewrite Hc.
    now destruct (Prim2SF CLIP_VALUE).
  - now destruct (Prim2SF a).
  - now destruct (Prim2SF a).
  - rewrite Prim2SF_clip in Hc. apply SFcompare_None_finite in Hc.
    now rewrite Hc.
Qed.

Lemma nonpos_le_zero (z : float) :
  signed_or_zero true (Prim2SF z) -> (z <=? 0) = true.
Proof.
  rewrite leb_spec, Prim2SF_zero. unfold SFleb.
  destruct (Prim2SF z) as [s|s| |s m e]; simpl; intros H;
    try contradiction; subst; reflexivity.
Qed.

Lemma signed_false_ge_zero (z : float) :
  signed false (Prim2SF z) -> (0 <=? z) = true.
Proof.
  rewrite leb_spec, Prim2SF_zero. unfold SFleb.
  destruct (Prim2SF z) as [s|s| |s m e]; simpl; intros H;
    try contradiction; subst; reflexivity.
Qed.

(** A value of positive sign lies above the floor: the clip leaves it. *)
Lemma signed_false_unclipped (z : float) :
  signed false (Prim2SF z) -> Np.maximum z CLIP_VALUE = z.
Proof.
  intros H. unfold Np.maximum. rewrite is_nan_spec, ltb_spec, Prim2SF_clip.
  unfold SFltb.
  destruct (Prim2SF z) as [s|s| |s m e]; cbn [signed] in H;
    try contradiction; subst; reflexivity.
Qed.

(** Either [+0.0] or strictly positive. *)
Lemma signed_false_zero_or_pos (z : float) :
  signed false (Prim2SF z) -> z = 0 \/ (0 <? z) = true.
Proof.
  intros H. rewrite ltb_spec, Prim2SF_zero. unfold SFltb.
  destruct (Prim2SF z) as [s|s| |s m e] eqn:Hz; simpl in *;
    try contradiction; subst; auto.
  left. apply Prim2SF_inj. now rewrite Hz.
Qed.

(** The floor and the ceiling of a clipped non-positive value. *)
Lemma maximum_clip_bounds (z : float) :
  (z <=? 0) = true ->
  (Np.maximum z CLIP_VALUE <=? 0) = true /\
  (CLIP_VALUE <=? Np.maximum z CLIP_VALUE) = true.
Proof.
  intros Hz. unfold Np.maximum.
  assert (Hn : is_nan z = false).
  { rewrite is_nan_spec. rewrite leb_spec in Hz. unfold SFleb in Hz.
    now destruct (Prim2SF z). }
  rewrite Hn. destruct (CLIP_VALUE <? z) eqn:Hlt.
  - split; [exact Hz|]. rewrite ltb_spec in Hlt. rewrite leb_spec.
    unfold SFltb, SFleb in *.
    now destruct (SFcompare (Prim2SF CLIP_VALUE) (Prim2SF z)) as [[| |]|].
  - split; reflexivity.
Qed.

(** [-x / r] for [x >= 0] has the sign of [-x]; for [x < 0] it has the
    opposite sign. *)
Lemma neg_div_nonpos (x r : float) :
  (0 <=? x) = true -> pos_finite r = true ->
  signed_or_zero true (Prim2SF (- x / r)).
Proof.
  intros Hx Hr. destruct (pos_finite_spec r Hr) as (m & e & Er).
  rewrite div_spec, opp_spec, Er. apply SFdiv_signed_or_zero.
  rewrite leb_spec, Prim2SF_zero in Hx. unfold SFleb in Hx.
  destruct (Prim2SF x) as [s|s| |s mx ex]; simpl in *;
    try discriminate; try exact I; destruct s; try discriminate; reflexivity.
Qed.

Lemma neg_div_signed_neg (x r : float) :
  (x <? 0) = true -> pos_finite r = true -> signed false (Prim2SF (- x / r)).
Proof.
  intros Hx Hr. destruct (pos_finite_spec r Hr) as (m & e & Er).
  rewrite div_spec, opp_spec, Er. apply SFdiv_signed.
  rewrite ltb_spec, Prim2SF_zero in Hx. unfold SFltb in Hx.
  destruct (Prim2SF x) as [s|s| |s mx ex]; simpl in *;
    try discriminate; destruct s; try discriminate; reflexivity.
Qed.

End ClipFacts.

(** ** The grid: shape and contents *)

Section GridFacts.

Lemma shape_ok_has_shape (a : Np.grid) (r c : nat) :
  shape_ok a r c = true -> Np.has_shape a r c.
Proof.
  unfold shape_ok, Np.has_shape. rewrite andb_true_iff, Nat.eqb_eq.
  intros [Hl Hr]. split; [exact Hl|].
  rewrite forallb_forall in Hr. apply Forall_forall.
  intros row Hin. now apply Nat.eqb_eq, Hr.
Qed.

Lemma row_length (a : Np.grid) (r c i : nat) :
  Np.has_shape a r c -> (i < r)%nat -> List.length (nth i a []) = c.
Proof.
  intros [Hl Hr] Hi. rewrite Forall_forall in Hr.
  apply Hr, nth_In. now rewrite Hl.
Qed.

Lemma get_map2 (f : float -> float) (a : Np.grid) (r c i j : nat) :
  Np.has_shape a r c -> (i < r)%nat -> (j < c)%nat ->
  Np.get (Np.map2 f a) i j = f (Np.get a i j).
Proof.
  intros Hs Hi Hj. unfold Np.get, Np.map2.
  pose proof (row_length a r c i Hs Hi) as Hrow. destruct Hs as [Hl _].
  rewrite (nth_indep (map (map f) a) [] (map f [])) by (rewrite length_map; lia).
  rewrite (map_nth (map f) a [] i).
  rewrite (nth_indep (map f (nth i a [])) nan (f nan)) by (rewrite length_map; lia).
  apply map_nth.
Qed.

Lemma map2_has_shape (f : float -> float) (a : Np.grid) (r c : nat) :
  Np.has_shape a r c -> Np.has_shape (Np.map2 f a) r c.
Proof.
  intros [Hl Hr]. split; unfold Np.map2.
  - now rewrite length_map.
  - apply Forall_map. eapply Forall_impl; [|exact Hr].
    intros row Hrow. now rewrite length_map.
Qed.

Lemma all2_get (p : float -> bool) (a : Np.grid) (r c i j : nat) :
  all2 p a = true -> Np.has_shape a r c -> (i < r)%nat -> (j < c)%nat ->
  p (Np.get a i j) = true.
Proof.
  intros Hall Hs Hi Hj. unfold all2 in Hall. rewrite forallb_forall in Hall.
  pose proof (row_length a r c i Hs Hi) as Hrow. destruct Hs as [Hl _].
  assert (Hin : In (nth i a []) a) by (apply nth_In; lia).
  specialize (Hall _ Hin). rewrite forallb_forall in Hall.
  apply Hall. unfold Np.get. apply nth_In. lia.
Qed.

(** The Base Radial Field is 100x100 and holds positive finite radii only
    (the grid has no sample at the origin, and the epsilon is added anyway). *)
Lemma R_base_shape : Np.has_shape R_base GRID_SIZE GRID_SIZE.
Proof. apply shape_ok_has_shape. vm_compute. reflexivity. Qed.

Lemma X_shape : Np.has_shape X GRID_SIZE GRID_SIZE.
Proof. apply shape_ok_has_shape. vm_compute. reflexivity. Qed.

Lemma Y_shape : Np.has_shape Y GRID_SIZE GRID_SIZE.
Proof. apply shape_ok_has_shape. vm_compute. reflexivity. Qed.

Lemma R_base_pos_finite : all2 pos_finite R_base = true.
Proof. vm_compute. reflexivity. Qed.

Lemma R_base_get_pos_finite (i j : nat) :
  (i < GRID_SIZE)%nat -> (j < GRID_SIZE)%nat ->
  pos_finite (Np.get R_base i j) = true.
Proof.
  intros Hi Hj.
  exact (all2_get _ _ _ _ i j R_base_pos_finite R_base_shape Hi Hj).
Qed.

Lemma curvature_get (R : Np.grid) (mass : float) (r c i j : nat) :
  Np.has_shape R r c -> (i < r)%nat -> (j < c)%nat ->
  Np.get (curvature R mass) i j =
  Np.maximum (- mass / Np.get R i j) CLIP_VALUE.
Proof.
  intros Hs Hi Hj. unfold curvature, curvature_raw.
  rewrite (get_map2 _ _ r c) by (auto using map2_has_shape).
  now rewrite (get_map2 _ _ r c).
Qed.

End GridFacts.

(** ** When a quotient cannot underflow *)

Section Underflow.

Local Open Scope Z_scope.

Lemma digits2_pos_size (p : positive) : digits2_pos p = Pos.size p.
Proof. induction p; simpl; congruence. Qed.

(** [m] has exactly [Zdigits2 m] binary digits. *)
Lemma Zdigits2_bounds (p : positive) :
  2 ^ (Zdigits2 (Zpos p) - 1) <= Zpos p < 2 ^ Zdigits2 (Zpos p).
Proof.
  cbn [Zdigits2]. rewrite digits2_pos_size.
  pose proof (Pos.size_gt p) as Hgt. pose proof (Pos.size_le p) as Hle.
  apply Pos2Z.pos_lt_pos in Hgt. apply Pos2Z.pos_le_pos in Hle.
  rewrite Pos2Z.inj_pow in Hgt, Hle. rewrite (Pos2Z.inj_xO p) in Hle.
  split; [|exact Hgt].
  assert (H2 : 2 ^ Z.pos (Pos.size p) = 2 * 2 ^ (Z.pos (Pos.size p) - 1))
    by (rewrite <- Z.pow_succ_r by lia; f_equal; lia).
  lia.
Qed.

Lemma Zdigits2_lower (m k : Z) : 0 <= k -> 2 ^ k <= m -> k < Zdigits2 m.
Proof.
  intros Hk Hm. destruct m as [|p|p]; try (pose proof (Z.pow_pos_nonneg 2 k); lia).
  pose proof (Zdigits2_bounds p) as [_ Hlt].
  apply (Z.pow_lt_mono_r_iff 2); [lia| cbn; lia | lia].
Qed.

Lemma shr_1_div2 (mrs : shr_record) :
  0 <= shr_m mrs -> shr_m (shr_1 mrs) = shr_m mrs / 2.
Proof.
  destruct mrs as [[|[q|q|]|q] r s]; cbn [shr_1 shr_m]; intros H; try lia.
  - reflexivity.
  - rewrite Pos2Z.inj_xI. apply (Z.div_unique _ _ _ 1); lia.
  - rewrite Pos2Z.inj_xO. apply (Z.div_unique _ _ _ 0); lia.
  - reflexivity.
Qed.

Lemma iter_pos_shr_1_div (p : positive) (mrs : shr_record) :
  0 <= shr_m mrs ->
  shr_m (iter_pos shr_1 p mrs) = shr_m mrs / 2 ^ Zpos p.
Proof.
  revert mrs. induction p as [p IH | p IH |]; intros mrs H; cbn [iter_pos].
  - rewrite IH by (apply iter_pos_shr_1_nonneg; rewrite shr_1_div2 by lia;
                   apply Z.div_pos; lia).
    rewrite IH by (rewrite shr_1_div2 by lia; apply Z.div_pos; lia).
    rewrite shr_1_div2 by lia.
    rewrite !Z.div_div by lia.
    rewrite Pos2Z.inj_xI, <- !Z.pow_add_r, <- Z.pow_succ_r by lia.
    f_equal. f_equal. lia.
  - rewrite IH by (now apply iter_pos_shr_1_nonneg).
    rewrite IH by lia. rewrite Z.div_div by lia.
    rewrite Pos2Z.inj_xO, <- Z.pow_add_r by lia. f_equal. f_equal. lia.
  - rewrite shr_1_div2 by lia. reflexivity.
Qed.

(** Above the smallest exponent, the shift to the canonical exponent keeps
    a positive mantissa positive and does not lower its magnitude class. *)
Lemma shr_fexp_pos (m e : Z) (l : location) :
  0 < m -> emin < Zdigits2 m + e ->
  let r := shr_fexp prec emax m e l in
  0 < shr_m (fst r) /\ Zdigits2 m + e <= Zdigits2 (shr_m (fst r)) + snd r.
Proof.
  intros Hm He. unfold shr_fexp, shr.
  assert (H0 : shr_m (shr_record_of_loc m l) = m)
    by (destruct l as [|[| |]]; reflexivity).
  destruct (fexp prec emax (Zdigits2 m + e) - e) as [|n|n] eqn:Hn;
    cbn [fst snd]; rewrite ?H0; try lia.
  rewrite iter_pos_shr_1_div, H0 by lia.
  destruct m as [|p|p]; try lia.
  pose proof (Zdigits2_bounds p) as [Hlo _].
  set (d := Zdigits2 (Zpos p)) in *.
  assert (Hnd : Zpos n < d).
  { unfold fexp, emin, prec, emax in *. lia. }
  assert (Hq : 2 ^ (d - 1 - Zpos n) <= Zpos p / 2 ^ Zpos n).
  { apply Z.div_le_lower_bound; [apply Z.pow_pos_nonneg; lia|].
    rewrite <- Z.pow_add_r by lia.
    replace (Zpos n + (d - 1 - Zpos n)) with (d - 1) by lia. exact Hlo. }
  split.
  - pose proof (Z.pow_pos_nonneg 2 (d - 1 - Zpos n)). lia.
  - apply Zdigits2_lower in Hq; lia.
Qed.

Lemma round_nearest_even_ge (m : Z) (l : location) :
  m <= round_nearest_even m l.
Proof.
  destruct l as [|[| |]]; simpl; try lia. destruct (Z.even m); lia.
Qed.

Lemma Zdigits2_mono (m n : Z) : 0 < m -> m <= n -> Zdigits2 m <= Zdigits2 n.
Proof.
  intros Hm Hmn. destruct m as [|p|p]; try lia. destruct n as [|q|q]; try lia.
  pose proof (Zdigits2_bounds p) as [Hlo _].
  assert (H : Zdigits2 (Zpos p) - 1 < Zdigits2 (Zpos q)).
  { apply Zdigits2_lower; [unfold Zdigits2; lia | lia]. }
  lia.
Qed.

(** Rounding a positive mantissa above the smallest exponent never gives a
    zero. *)
Lemma binary_round_aux_pos (m e : Z) (l : location) :
  0 < m -> emin < Zdigits2 m + e ->
  match binary_round_aux prec emax false m e l with
  | S754_finite false _ _ | S754_infinity false => True
  | _ => False
  end.
Proof.
  intros Hm He. unfold binary_round_aux.
  pose proof (shr_fexp_pos m e l Hm He) as H1. cbn zeta in H1.
  destruct (shr_fexp prec emax m e l) as [mrs' e']. cbn [fst snd] in H1.
  destruct H1 as [H1 H1'].
  set (m2 := round_nearest_even (shr_m mrs') (loc_of_shr_record mrs')).
  pose proof (round_nearest_even_ge (shr_m mrs') (loc_of_shr_record mrs')) as Hge.
  fold m2 in Hge.
  pose proof (Zdigits2_mono _ _ H1 Hge) as Hd.
  pose proof (shr_fexp_pos m2 e' loc_Exact ltac:(lia) ltac:(lia)) as H2.
  cbn zeta in H2.
  destruct (shr_fexp prec emax m2 e' loc_Exact) as [mrs'' e''].
  cbn [fst snd] in H2. destruct H2 as [H2 _].
  destruct (shr_m mrs'') as [|q|q]; try lia.
  match goal with |- context [if ?c then _ else _] => destruct c end; exact I.
Qed.

End Underflow.

Section QuotientPositive.

Local Open Scope Z_scope.

Lemma SFdiv_core_pos (m1 m2 : positive) (e1 e2 : Z) :
  emin + prec <= magnitude m1 e1 - magnitude m2 e2 ->
  let r := SFdiv_core_binary prec emax (Zpos m1) e1 (Zpos m2) e2 in
  0 < fst (fst r) /\
  magnitude m1 e1 - magnitude m2 e2 <= Zdigits2 (fst (fst r)) + snd (fst r).
Proof.
  unfold magnitude. intros HE. unfold SFdiv_core_binary.
  pose proof (Zdigits2_bounds m1) as [Hlo1 _].
  pose proof (Zdigits2_bounds m2) as [_ Hhi2].
  set (d1 := Zdigits2 (Zpos m1)) in *. set (d2 := Zdigits2 (Zpos m2)) in *.
  assert (Hd1 : 0 < d1) by (subst d1; unfold Zdigits2; lia).
  assert (Hd2 : 0 < d2) by (subst d2; unfold Zdigits2; lia).
  set (e' := Z.min (fexp prec emax (d1 + e1 - (d2 + e2))) (e1 - e2)).
  assert (He' : e' <= e1 - e2 /\ e' <= d1 + e1 - (d2 + e2) - prec).
  { subst e'. unfold fexp, emin, prec, emax in *. lia. }
  set (s := e1 - e2 - e').
  assert (Hs : 0 <= s /\ prec - d1 + d2 <= s) by (subst s; lia).
  set (m' := match s with Zpos _ => _ | Z0 => _ | Zneg _ => _ end).
  assert (Hm' : m' = Zpos m1 * 2 ^ s).
  { subst m'. destruct s as [|p|p]; try lia.
    now rewrite Z.shiftl_mul_pow2 by lia. }
  set (k := d1 - 1 + s - d2).
  assert (Hk : 0 <= k) by (subst k; unfold prec in *; lia).
  assert (Hq : 2 ^ k <= m' / Zpos m2).
  { apply Z.div_le_lower_bound; [lia|].
    assert (H1 : 2 ^ (d1 - 1) * 2 ^ s <= m').
    { rewrite Hm'. apply Z.mul_le_mono_nonneg_r; [|exact Hlo1].
      apply Z.pow_nonneg. lia. }
    assert (H2 : 2 ^ (d1 - 1) * 2 ^ s = 2 ^ d2 * 2 ^ k).
    { rewrite <- !Z.pow_add_r by lia. f_equal. subst k. lia. }
    assert (H3 : Zpos m2 * 2 ^ k <= 2 ^ d2 * 2 ^ k).
    { apply Z.mul_le_mono_nonneg_r; [apply Z.pow_nonneg|]; lia. }
    lia. }
  unfold Z.div in Hq. destruct (Z.div_eucl m' (Zpos m2)) as [q r].
  cbn [fst snd] in *. split.
  - pose proof (Z.pow_pos_nonneg 2 k). lia.
  - apply Zdigits2_lower in Hq; [|exact Hk]. subst k s. lia.
Qed.

(** A positive finite value divided by a positive finite value that is at
    most [prec] magnitude classes away from the smallest normal quotient is
    positive: it does not underflow to zero. *)
Lemma SFdiv_pos (m1 m2 : positive) (e1 e2 : Z) :
  emin + prec <= magnitude m1 e1 - magnitude m2 e2 ->
  match SF64div (S754_finite false m1 e1) (S754_finite false m2 e2) with
  | S754_finite false _ _ | S754_infinity false => True
  | _ => False
  end.
Proof.
  intros HE. unfold SF64div, SFdiv.
  pose proof (SFdiv_core_pos m1 m2 e1 e2 HE) as H. cbn zeta in H.
  destruct (SFdiv_core_binary prec emax (Zpos m1) e1 (Zpos m2) e2) as [[q e] l].
  cbn [fst snd xorb] in *. destruct H as [Hq Hm].
  apply binary_round_aux_pos; [exact Hq|].
  unfold emin, prec, emax in *. lia.
Qed.

Lemma canonical_digits (m : positive) (e : Z) :
  bounded prec emax m e = true ->
  e = Z.max (magnitude m e - prec) emin.
Proof.
  unfold bounded, canonical_mantissa, magnitude, fexp.
  rewrite andb_true_iff, Z.eqb_eq. intros [H _].
  cbn [Zdigits2]. lia.
Qed.

(** A valid value at or below a negative finite bound is at least as large
    in magnitude. *)
Lemma SFleb_negative_bound (x : spec_float) (m0 : positive) (e0 : Z) :
  valid_binary x = true -> bounded prec emax m0 e0 = true ->
  SFleb x (S754_finite true m0 e0) = true ->
  x = S754_infinity true \/
  exists m e, x = S754_finite true m e /\ magnitude m0 e0 <= magnitude m e.
Proof.
  intros Hv Hv0. apply canonical_digits in Hv0. unfold SFleb.
  destruct x as [s|s| |s m e]; cbn [SFcompare]; try discriminate.
  - destruct s; [auto | discriminate].
  - cbn [valid_binary] in Hv. apply canonical_digits in Hv.
    destruct s; [|discriminate].
    intros H. right. exists m, e. split; [reflexivity|].
    destruct (e ?= e0) eqn:He.
    + apply Z.compare_eq in He. subst e0.
      assert (Hm : (m0 <= m)%positive).
      { change (Pos.compare_cont Eq m m0) with (Pos.compare m m0) in H.
        destruct (Pos.compare_spec m m0) as [-> | Hlt | Hgt];
          [apply Pos.le_refl | discriminate | now apply Pos.lt_le_incl]. }
      unfold magnitude.
      pose proof (Zdigits2_mono (Zpos m0) (Zpos m) ltac:(lia) ltac:(lia)). lia.
    + discriminate.
    + rewrite Z.compare_gt_iff in He. unfold magnitude, emin, prec, emax in *. lia.
Qed.

(** A valid positive value below a positive finite bound is at most as
    large in magnitude. *)
Lemma SFltb_positive_bound (m m0 : positive) (e e0 : Z) :
  bounded prec emax m e = true -> bounded prec emax m0 e0 = true ->
  SFltb (S754_finite false m e) (S754_finite false m0 e0) = true ->
  magnitude m e <= magnitude m0 e0.
Proof.
  intros Hv Hv0. apply canonical_digits in Hv, Hv0.
  unfold SFltb. cbn [SFcompare].
  destruct (e ?= e0) eqn:He.
  - apply Z.compare_eq in He. subst e0.
    change (Pos.compare_cont Eq m m0) with (Pos.compare m m0).
    destruct (Pos.compare_spec m m0) as [-> | Hlt | Hgt]; try discriminate.
    intros _. unfold magnitude.
    pose proof (Zdigits2_mono (Zpos m) (Zpos m0) ltac:(lia) ltac:(lia)). lia.
  - intros _. rewrite Z.compare_lt_iff in He.
    unfold magnitude, emin, prec, emax in *. lia.
  - discriminate.
Qed.

End QuotientPositive.

Section NoUnderflow.

Lemma Prim2SF_mass_bound :
  Prim2SF MASS_BOUND = S754_finite true 6032057205060441 (-1049).
Proof. reflexivity. Qed.

Lemma Prim2SF_radius_bound :
  Prim2SF RADIUS_BOUND = S754_finite false 4503599627370496 (-47).
Proof. reflexivity. Qed.

Lemma small_radius_spec (r : float) :
  small_radius r = true ->
  exists m e, Prim2SF r = S754_finite false m e /\ (magnitude m e <= 6)%Z.
Proof.
  unfold small_radius. rewrite andb_true_iff, !ltb_spec, Prim2SF_zero.
  pose proof (Prim2SF_valid r) as Hv. rewrite Prim2SF_radius_bound.
  destruct (Prim2SF r) as [s|s| |s m e]; intros [H0 H1];
    try discriminate; try (destruct s; discriminate).
  destruct s; [discriminate|]. exists m, e. split; [reflexivity|].
  cbn [valid_binary] in Hv.
  exact (SFltb_positive_bound m 4503599627370496 e (-47) Hv eq_refl H1).
Qed.

(** For a mass at or below [-1e-300] and a radius of the grid, the quotient
    [-mass / r] is a positive number or [+inf]: it cannot underflow. *)
Lemma neg_div_pos (x r : float) :
  (x <=? MASS_BOUND) = true -> small_radius r = true ->
  (0 <? - x / r) = true.
Proof.
  intros Hx Hr. destruct (small_radius_spec r Hr) as (m2 & e2 & Er & Hm2).
  rewrite leb_spec, Prim2SF_mass_bound in Hx.
  apply SFleb_negative_bound in Hx; [|apply Prim2SF_valid|reflexivity].
  rewrite ltb_spec, div_spec, opp_spec, Er, Prim2SF_zero.
  destruct Hx as [Ex | (m1 & e1 & Ex & Hm1)]; rewrite Ex; [reflexivity|].
  cbn [SFopp negb].
  assert (Hmag : (magnitude 6032057205060441 (-1049) = -996)%Z) by reflexivity.
  pose proof (SFdiv_pos m1 m2 e1 e2) as Hd.
  assert (HE : (emin + prec <= magnitude m1 e1 - magnitude m2 e2)%Z)
    by (unfold emin, prec, emax; lia).
  specialize (Hd HE). unfold SFltb.
  destruct (SF64div (S754_finite false m1 e1) (S754_finite false m2 e2))
    as [s|s| |s m e]; try contradiction; destruct s; try contradiction;
    reflexivity.
Qed.

Lemma R_base_small_radius : all2 small_radius R_base = true.
Proof. vm_compute. reflexivity. Qed.

End NoUnderflow.

(** ** Field Evaluator: the claims on the Curvature Field *)

(** C1. For every binary64 mass, the Curvature Field computed from the
    precomputed Base Radial Field is a 100x100 array, and its element at
    (i, j) is [max(-mass / R_base[i][j], -15)]. *)
Theorem curvature_field_elements (mass : float) (i j : nat) :
  (i < 100)%nat -> (j < 100)%nat ->
  Np.has_shape (curvature R_base mass) 100 100 /\
  Np.get (curvature R_base mass) i j =
  spec_max (- mass / Np.get R_base i j) (-15).
Proof.
  intros Hi Hj. split.
  - unfold curvature, curvature_raw.
    apply map2_has_shape, map2_has_shape, R_base_shape.
  - rewrite (curvature_get R_base mass 100 100) by (auto using R_base_shape).
    apply maximum_clip_spec_max.
Qed.

Lemma curvature_field_elements_witness :
  Np.has_shape (curvature R_base 10) 100 100 /\
  Np.get (curvature R_base 10) 3 7 = spec_max (- 10 / Np.get R_base 3 7) (-15).
Proof. apply (curvature_field_elements 10 3 7); lia. Defined.

(** C5. For every mass >= 0 every element of the Curvature Field lies
    between the floor -15 and 0. *)
Theorem curvature_clipping_invariant (mass : float) (i j : nat) :
  (0 <=? mass) = true -> (i < 100)%nat -> (j < 100)%nat ->
  (Np.get (curvature R_base mass) i j <=? 0) = true /\
  (-15 <=? Np.get (curvature R_base mass) i j) = true.
Proof.
  intros Hm Hi Hj.
  rewrite (curvature_get R_base mass 100 100) by (auto using R_base_shape).
  apply maximum_clip_bounds, nonpos_le_zero, neg_div_nonpos; [exact Hm|].
  now apply R_base_get_pos_finite.
Qed.

Lemma curvature_clipping_invariant_witness :
  (Np.get (curvature R_base 10) 49 49 <=? 0) = true /\
  (-15 <=? Np.get (curvature R_base 10) 49 49) = true.
Proof.
  apply (curvature_clipping_invariant 10 49 49); [reflexivity | lia | lia].
Defined.

(** C10, as the claim states it, fails in binary64: for the smallest
    negative subnormal mass the quotient at the grid corner underflows to
    [+0.0], which is not strictly positive. *)
Lemma negative_mass_corner_underflows :
  (- 0x1p-1074 <? 0) = true /\
  (0 <? Np.get (curvature R_base (- 0x1p-1074)) 0 0) = false.
Proof. split; vm_compute; reflexivity. Qed.

(** C10 (amended). For every mass < 0, every element of the Curvature Field
    equals [-mass / R_base[i][j]] (the -15 floor never engages) and is never
    negative: it is strictly positive for every mass <= -1e-300, and below
    that bound unless the quotient underflows to [+0.0]. There is no upper
    clamp: at mass = -inf the element is +inf. *)
Theorem negative_mass_field_unclipped (mass : float) (i j : nat) :
  (mass <? 0) = true -> (i < 100)%nat -> (j < 100)%nat ->
  Np.get (curvature R_base mass) i j = - mass / Np.get R_base i j /\
  (Np.get (curvature R_base mass) i j = 0 \/
   (0 <? Np.get (curvature R_base mass) i j) = true) /\
  ((mass <=? -1e-300) = true ->
   (0 <? Np.get (curvature R_base mass) i j) = true) /\
  Np.get (curvature R_base neg_infinity) i j = infinity.
Proof.
  intros Hm Hi Hj.
  pose proof (R_base_get_pos_finite i j Hi Hj) as Hr.
  pose proof (all2_get _ _ _ _ i j R_base_small_radius R_base_shape Hi Hj) as Hr'.
  rewrite !(curvature_get R_base _ 100 100) by (auto using R_base_shape).
  pose proof (neg_div_signed_neg mass _ Hm Hr) as Hs.
  rewrite (signed_false_unclipped _ Hs).
  split; [reflexivity|]. split; [now apply signed_false_zero_or_pos|].
  split; [intros Hb; now apply neg_div_pos|].
  assert (Hinf : - neg_infinity / Np.get R_base i j = infinity).
  { apply Prim2SF_inj. destruct (pos_finite_spec _ Hr) as (m & e & Er).
    rewrite div_spec, opp_spec, Er. reflexivity. }
  rewrite Hinf. reflexivity.
Qed.

Lemma negative_mass_field_unclipped_witness :
  Np.get (curvature R_base (-10)) 0 0 = - (-10) / Np.get R_base 0 0 /\
  (Np.get (curvature R_base (-10)) 0 0 = 0 \/
   (0 <? Np.get (curvature R_base (-10)) 0 0) = true) /\
  ((-10 <=? -1e-300) = true ->
   (0 <? Np.get (curvature R_base (-10)) 0 0) = true) /\
  Np.get (curvature R_base neg_infinity) 0 0 = infinity.
Proof.
  apply (negative_mass_field_unclipped (-10) 0 0); [reflexivity | lia | lia].
Defined.

(** ** Field Evaluator: the test particle *)

(** The radius of the test particle carries the same epsilon as the grid. *)
Lemma r_sphere_value : r_sphere = 13 + 1e-6 /\ sqrt (12 * 12 + 5 * 5) = 13.
Proof. split; reflexivity. Qed.

(** C3, as the claim states it, fails: at mass = 13 the plotted z is not
    [max(-13 / sqrt(12^2 + 5^2), -15) = -1], because the code divides by
    [sqrt(12^2 + 5^2) + 1e-6]. *)
Lemma test_particle_not_exact :
  z_sphere_clipped 13 <> spec_max (- 13 / sqrt (12 * 12 + 5 * 5)) (-15).
Proof.
  intros H. apply (f_equal (fun v => v =? -1)) in H.
  vm_compute in H. discriminate H.
Qed.

(** C3 (amended). For every binary64 mass the plotted test-particle z is
    [max(-mass / (sqrt(12^2 + 5^2) + 1e-6), -15)]. *)
Theorem test_particle_z (mass : float) :
  z_sphere_clipped mass =
  spec_max (- mass / (sqrt (12 * 12 + 5 * 5) + 1e-6)) (-15).
Proof.
  unfold z_sphere_clipped, z_sphere. rewrite maximum_clip_spec_max.
  reflexivity.
Qed.

(** ** The pipeline, step by step *)

Section PipelineFacts.

Variable print_figure : Figure -> string -> string -> outcome bytes.

Lemma set_figs_same (w : World) : set_figs w (figs w) = w.
Proof. now destruct w. Qed.

Lemma set_figs_twice (w : World) (fs gs : list (nat * Figure)) :
  set_figs (set_figs w fs) gs = set_figs w gs.
Proof. reflexivity. Qed.

Lemma nums_below_next (fs : list (nat * Figure)) (kf : nat * Figure) :
  In kf fs -> (fst kf < next_num fs)%nat.
Proof.
  unfold next_num. induction fs as [|[k f] fs IH]; simpl; [contradiction|].
  intros [<- | Hin]; simpl; [lia|]. specialize (IH Hin). lia.
Qed.

(** Closing the figure that was just opened restores the registry. *)
Lemma remove_fresh_fig (fs : list (nat * Figure)) (f : Figure) :
  remove_fig (next_num fs) ((next_num fs, f) :: fs) = fs.
Proof.
  unfold remove_fig. cbn [filter fst]. rewrite Nat.eqb_refl. cbn [negb].
  apply forallb_filter_id. apply forallb_forall. intros kf Hin.
  apply nums_below_next in Hin. apply negb_true_iff, Nat.eqb_neq. lia.
Qed.

Lemma bytesio_roundtrip (png : bytes) :
  fst (BytesIO.read (BytesIO.seek (BytesIO.write BytesIO.new png) 0)) = png.
Proof.
  unfold BytesIO.read, BytesIO.seek, BytesIO.write, BytesIO.new. cbn.
  rewrite skipn_nil. apply app_nil_r.
Qed.

(** What one call of [generate_plot_image] does: the renderer is handed
    [drawn_figure]; when it returns PNG bytes the call returns the data URI
    and leaves the state as it found it, and when it raises the exception
    propagates past [plt.close] and the figure stays registered. *)
Lemma generate_plot_image_run (mass_value : float) (w : World) :
  generate_plot_image print_figure mass_value w =
  match print_figure (drawn_figure (globals w) mass_value) "png" "tight" with
  | Ret png => (Ret (DATA_URI_PREFIX ++ Base64.b64encode png)%string, w)
  | Raise e =>
      (Raise e,
       set_figs w ((next_num (figs w), drawn_figure (globals w) mass_value)
                   :: figs w))
  end.
Proof.
  unfold generate_plot_image, bind, read_globals, plt_figure, add_subplot,
    on_axes, savefig, plt_close, ret.
  set (n := next_num (figs w)).
  repeat (progress (cbn [figs set_figs globals stdout tracebacks fst snd lookup_fig
                         update_fig fig_axes fig_size List.length app update_nth];
                    rewrite ?Nat.eqb_refl)).
  change (Np.map2 (fun z => Np.maximum z CLIP_VALUE)
            (curvature_raw (g_R_base (globals w)) mass_value))
    with (curvature (g_R_base (globals w)) mass_value).
  change (print_figure _ "png" "tight")
    with (print_figure (drawn_figure (globals w) mass_value) "png" "tight").
  destruct (print_figure (drawn_figure (globals w) mass_value) "png" "tight")
    as [png|e].
  - rewrite bytesio_roundtrip, !set_figs_twice. subst n. cbn [figs set_figs].
    now rewrite remove_fresh_fig, set_figs_same.
  - now rewrite !set_figs_twice.
Qed.

End PipelineFacts.

(** ** Base64 loses nothing *)

Section Base64Facts.

Import Base64.
Local Open Scope N_scope.

Lemma sextet_in (n : N) : n < 64 -> In n sextets.
Proof.
  intros H. unfold sextets. rewrite <- (N2Nat.id n). apply in_map, in_seq. lia.
Qed.

Lemma index_char (n : N) : n < 64 -> index (char n) = Some n.
Proof.
  intros H. apply sextet_in in H. revert n H. apply Forall_forall.
  repeat constructor.
Qed.

Lemma index_pad : index pad = None.
Proof. reflexivity. Qed.

Ltac euclid := zify; Z.to_euclidean_division_equations; lia.

Lemma join_first (x y : N) :
  x < 256 -> y < 256 -> x / 4 * 4 + (x mod 4 * 16 + y / 16) / 16 = x.
Proof. intros; euclid. Qed.

Lemma join_second (x y z : N) :
  x < 256 -> y < 256 -> z < 256 ->
  (x mod 4 * 16 + y / 16) mod 16 * 16 + (y mod 16 * 4 + z / 64) / 4 = y.
Proof. intros; euclid. Qed.

Lemma join_third (y z : N) :
  y < 256 -> z < 256 -> (y mod 16 * 4 + z / 64) mod 4 * 64 + z mod 64 = z.
Proof. intros; euclid. Qed.

Lemma b64decode_encode_below (n : nat) (bs : bytes) :
  (List.length bs < n)%nat -> b64decode (b64encode bs) = Some bs.
Proof.
  revert bs. induction n as [|n IH]; intros bs Hlen; [lia|].
  destruct bs as [|a [|b [|c rest]]]; [reflexivity| | |].
  - pose proof (N_ascii_bounded a) as Ha.
    cbn [b64encode b64decode].
    rewrite !index_char by euclid. rewrite index_pad.
    rewrite !Ascii.eqb_refl. cbn [andb].
    replace (N_of_ascii a mod 4 * 16 mod 16 =? 0) with true
      by (symmetry; apply N.eqb_eq; euclid).
    replace (N_of_ascii a / 4 * 4 + N_of_ascii a mod 4 * 16 / 16)
      with (N_of_ascii a) by euclid.
    now rewrite ascii_N_embedding.
  - pose proof (N_ascii_bounded a) as Ha. pose proof (N_ascii_bounded b) as Hb.
    cbn [b64encode b64decode].
    rewrite !index_char by euclid. rewrite index_pad.
    rewrite !Ascii.eqb_refl. cbn [andb].
    replace (N_of_ascii b mod 16 * 4 mod 4 =? 0) with true
      by (symmetry; apply N.eqb_eq; euclid).
    rewrite join_first by assumption.
    replace ((N_of_ascii a mod 4 * 16 + N_of_ascii b / 16) mod 16 * 16 +
             N_of_ascii b mod 16 * 4 / 4)
      with (N_of_ascii b) by euclid.
    now rewrite !ascii_N_embedding.
  - pose proof (N_ascii_bounded a) as Ha. pose proof (N_ascii_bounded b) as Hb.
    pose proof (N_ascii_bounded c) as Hc.
    cbn [b64encode b64decode].
    rewrite !index_char by euclid.
    rewrite join_first, join_second, join_third by assumption.
    rewrite !ascii_N_embedding.
    rewrite IH by (cbn [List.length] in Hlen; lia). reflexivity.
Qed.

(** Decoding the base64 text gives back the very bytes that were encoded. *)
Lemma b64decode_encode (bs : bytes) : b64decode (b64encode bs) = Some bs.
Proof. apply (b64decode_encode_below (S (List.length bs))). lia. Qed.

End Base64Facts.

(** ** The endpoint, step by step *)

Section EndpointFacts.

Variable print_figure : Figure -> string -> string -> outcome bytes.

Lemma simulation_endpoint_run (req : Request) (w : World) :
  simulation_endpoint print_figure req w =
  match print_figure (drawn_figure (globals w) (requested_mass req))
                     "png" "tight" with
  | Ret png => (Ret (success_response (requested_mass req) png), w)
  | Raise e =>
      (Ret (error_response e), world_after_error w (requested_mass req) e)
  end.
Proof.
  unfold simulation_endpoint, try_except, bind.
  fold (requested_mass req). rewrite generate_plot_image_run.
  destruct (print_figure _ "png" "tight") as [png|e]; reflexivity.
Qed.

Lemma generate_plot_image_globals (mass : float) (w : World) :
  globals (snd (generate_plot_image print_figure mass w)) = globals w.
Proof.
  rewrite generate_plot_image_run.
  now destruct (print_figure _ "png" "tight").
Qed.

Lemma simulation_endpoint_globals (req : Request) (w : World) :
  globals (snd (simulation_endpoint print_figure req w)) = globals w.
Proof.
  rewrite simulation_endpoint_run.
  now destruct (print_figure _ "png" "tight").
Qed.

Lemma serve_globals (reqs : list Request) (w : World) :
  globals (snd (serve print_figure reqs w)) = globals w.
Proof.
  revert w. induction reqs as [|req reqs IH]; intros w; [reflexivity|].
  cbn [serve].
  pose proof (simulation_endpoint_globals req w) as Hstep.
  destruct (simulation_endpoint print_figure req w) as [r w1].
  specialize (IH w1).
  destruct (serve print_figure reqs w1) as [rs w2].
  cbn [snd] in *. congruence.
Qed.

End EndpointFacts.

Example b64encode_png_signature :
  Base64.b64encode png_signature = "iVBORw0KGgo="%string.
Proof. reflexivity. Qed.

(** ** Encoder and Renderer: the claims on [generate_plot_image] *)

Local Open Scope string_scope.

(** C6. Whenever the pipeline returns, its string is the literal prefix
    ["data:image/png;base64,"] followed by the base64 text of exactly the
    bytes the renderer produced, decoding that text gives those bytes back,
    and this string is the [image_data] of the 200 response to every request
    for that mass. *)
Theorem image_data_is_data_uri
  (print_figure : Figure -> string -> string -> outcome bytes)
  (mass : float) (w w' : World) (image_data : string) :
  generate_plot_image print_figure mass w = (Ret image_data, w') ->
  exists png,
    print_figure (drawn_figure (globals w) mass) "png" "tight" = Ret png /\
    image_data = "data:image/png;base64," ++ Base64.b64encode png /\
    Base64.b64decode (Base64.b64encode png) = Some png /\
    forall req, requested_mass req = mass ->
      simulation_endpoint print_figure req w
      = (Ret (mkResponse 200 [("status", JString "success");
                              ("mass_used", JNumber mass);
                              ("image_data", JString image_data)]), w).
Proof.
  rewrite generate_plot_image_run.
  destruct (print_figure _ "png" "tight") as [png|e] eqn:Hp; intros H.
  - exists png. injection H as <- _.
    split; [reflexivity|]. split; [reflexivity|].
    split; [apply b64decode_encode|].
    intros req <-. rewrite simulation_endpoint_run, Hp. reflexivity.
  - discriminate H.
Qed.

Lemma image_data_is_data_uri_witness :
  exists png,
    sample_renderer (drawn_figure (globals initial_world) 10) "png" "tight"
    = Ret png /\
    "data:image/png;base64,iVBORw0KGgo="
    = "data:image/png;base64," ++ Base64.b64encode png /\
    Base64.b64decode (Base64.b64encode png) = Some png /\
    forall req, requested_mass req = 10%float ->
      simulation_endpoint sample_renderer req initial_world
      = (Ret (mkResponse 200
                [("status", JString "success"); ("mass_used", JNumber 10);
                 ("image_data",
                  JString "data:image/png;base64,iVBORw0KGgo=")]),
         initial_world).
Proof.
  apply (image_data_is_data_uri sample_renderer 10 initial_world initial_world).
  vm_compute. reflexivity.
Defined.

(** C9. The grid arrays and the Base Radial Field are set when the module
    is loaded, every call of the plot-generation function leaves them as
    they were, and so they still hold their initial values after any
    sequence of requests. *)
Theorem grid_is_never_mutated
  (print_figure : Figure -> string -> string -> outcome bytes)
  (mass : float) (w : World) (reqs : list Request) :
  globals (snd (generate_plot_image print_figure mass w)) = globals w /\
  globals initial_world = module_globals /\
  g_X (globals (snd (serve print_figure reqs initial_world))) = X /\
  g_Y (globals (snd (serve print_figure reqs initial_world))) = Y /\
  g_R_base (globals (snd (serve print_figure reqs initial_world))) = R_base.
Proof.
  split; [apply generate_plot_image_globals|].
  rewrite serve_globals. repeat split.
Qed.

(** C4 fails on the code: when [savefig] raises, the exception leaves
    [generate_plot_image] before [plt.close(fig)] is reached. The first
    request on a fresh process then leaves figure 1 registered, and a
    second one leaves figures 2 and 1. *)
Theorem figure_leaks_when_render_raises :
  figs initial_world = [] /\
  fst (generate_plot_image failing_renderer 10 initial_world)
  = Raise (Exn "cannot allocate the canvas") /\
  map fst (figs (snd (generate_plot_image failing_renderer 10 initial_world)))
  = [1%nat] /\
  map fst (figs (snd (serve failing_renderer
                        [mkRequest [("mass", "10")]; mkRequest [("mass", "10")]]
                        initial_world)))
  = [2%nat; 1%nat].
Proof. repeat split; vm_compute; reflexivity. Qed.

(** On the path without exception the figure is closed: the registry is
    what it was before the call. *)
Lemma figure_closed_when_render_returns
  (print_figure : Figure -> string -> string -> outcome bytes)
  (mass : float) (w w' : World) (image_data : string) :
  generate_plot_image print_figure mass w = (Ret image_data, w') -> w' = w.
Proof.
  rewrite generate_plot_image_run.
  destruct (print_figure _ "png" "tight"); intros H; [|discriminate H].
  now injection H.
Qed.

(** ** Request Handler: the claims on [simulation_endpoint] *)

(** C7. A request without a mass parameter is answered exactly as a request
    with [mass=10.0]: the pipeline draws the figure for mass 10.0, and the
    success response reports [mass_used = 10.0]. *)
Theorem missing_mass_defaults_to_ten
  (print_figure : Figure -> string -> string -> outcome bytes) (w : World) :
  simulation_endpoint print_figure (mkRequest []) w
  = simulation_endpoint print_figure (mkRequest [("mass", "10.0")]) w /\
  requested_mass (mkRequest []) = 10 /\
  match print_figure (drawn_figure (globals w) 10) "png" "tight" with
  | Ret png =>
      simulation_endpoint print_figure (mkRequest []) w
      = (Ret (mkResponse 200
                [("status", JString "success"); ("mass_used", JNumber 10);
                 ("image_data",
                  JString ("data:image/png;base64," ++ Base64.b64encode png))]),
         w)
  | Raise e =>
      fst (simulation_endpoint print_figure (mkRequest []) w)
      = Ret (mkResponse 500
               [("status", JString "error"); ("message", JString (exn_str e))])
  end%string.
Proof.
  rewrite !simulation_endpoint_run.
  assert (H1 : requested_mass (mkRequest []) = 10%float) by reflexivity.
  assert (H2 : requested_mass (mkRequest [("mass", "10.0")]) = 10%float)
    by (vm_compute; reflexivity).
  rewrite H1, H2. repeat split.
  destruct (print_figure _ "png" "tight"); reflexivity.
Qed.

(** C2, as the claim states it, fails: [mass=abc] is no number, and with
    a renderer that works the answer is a 200 success, not an error. *)
Lemma non_numeric_mass_gets_200 :
  PyFloat.py_float "abc" = None /\
  fst (simulation_endpoint sample_renderer (mkRequest [("mass", "abc")])
         initial_world)
  = Ret (success_response 10 png_signature) /\
  status_code (success_response 10 png_signature) = 200%nat /\
  is_error_response (success_response 10 png_signature) = false.
Proof. repeat split; vm_compute; reflexivity. Qed.

(** C2 (amended). When the mass parameter is a string that [float] rejects,
    the lookup falls back to the default mass: the request is answered
    exactly as one without the parameter, with a 200 success reporting
    [mass_used = 10.0] when the rendering returns, and with the 500 error
    response carrying the exception text only when the rendering raises. *)
Theorem non_numeric_mass_falls_back
  (print_figure : Figure -> string -> string -> outcome bytes)
  (query : list (string * string)) (v : string) (w : World) :
  first_value "mass" query = Some v ->
  PyFloat.py_float v = None ->
  simulation_endpoint print_figure (mkRequest query) w
  = simulation_endpoint print_figure (mkRequest []) w /\
  match print_figure (drawn_figure (globals w) 10) "png" "tight" with
  | Ret png =>
      fst (simulation_endpoint print_figure (mkRequest query) w)
      = Ret (success_response 10 png) /\
      status_code (success_response 10 png) = 200%nat
  | Raise e =>
      fst (simulation_endpoint print_figure (mkRequest query) w)
      = Ret (error_response e) /\
      status_code (error_response e) = 500%nat /\
      message_of (error_response e) = exn_str e
  end.
Proof.
  intros Hq Hv.
  assert (H1 : requested_mass (mkRequest query) = 10%float).
  { unfold requested_mass, args_get. cbn [args]. now rewrite Hq, Hv. }
  rewrite !simulation_endpoint_run, H1.
  change (requested_mass (mkRequest [])) with 10%float.
  split; [reflexivity|].
  destruct (print_figure _ "png" "tight"); repeat split.
Qed.

Lemma non_numeric_mass_falls_back_witness :
  simulation_endpoint sample_renderer (mkRequest [("mass", "abc")]) initial_world
  = simulation_endpoint sample_renderer (mkRequest []) initial_world /\
  match sample_renderer (drawn_figure (globals initial_world) 10) "png" "tight" with
  | Ret png =>
      fst (simulation_endpoint sample_renderer (mkRequest [("mass", "abc")])
             initial_world)
      = Ret (success_response 10 png) /\
      status_code (success_response 10 png) = 200%nat
  | Raise e =>
      fst (simulation_endpoint sample_renderer (mkRequest [("mass", "abc")])
             initial_world)
      = Ret (error_response e) /\
      status_code (error_response e) = 500%nat /\
      message_of (error_response e) = exn_str e
  end.
Proof.
  apply (non_numeric_mass_falls_back sample_renderer [("mass", "abc")] "abc"
           initial_world); vm_compute; reflexivity.
Defined.

(** ** Further properties: the grid *)

Section GridProperties.

Local Open Scope float_scope.

Lemma nth_map_in {A B} (f : A -> B) (l : list A) (i : nat) (d : B) (d' : A) :
  (i < List.length l)%nat -> nth i (map f l) d = f (nth i l d').
Proof.
  intros Hi. rewrite (nth_indep _ d (f d')) by (rewrite length_map; lia).
  apply map_nth.
Qed.

Lemma SFadd_comm (x y : spec_float) : SF64add x y = SF64add y x.
Proof.
  unfold SF64add, SFadd.
  destruct x as [sx|sx| |sx mx ex], y as [sy|sy| |sy my ey];
    try reflexivity; try (destruct sx, sy; reflexivity).
  rewrite (Z.min_comm ey ex). f_equal. apply Z.add_comm.
Qed.

Lemma float_add_comm (a b : float) : a + b = b + a.
Proof. apply Prim2SF_inj. rewrite !add_spec. apply SFadd_comm. Qed.

Lemma zip_with_length (f : float -> float -> float) (a b : Np.vec) (c : nat) :
  List.length a = c -> List.length b = c -> List.length (Np.zip_with f a b) = c.
Proof.
  revert b c. induction a as [|u a IH]; intros [|v b] c Ha Hb; simpl in *;
    try congruence.
  destruct c; [discriminate|]. f_equal. apply IH; congruence.
Qed.

Lemma zip_with_nth (f : float -> float -> float) (a b : Np.vec) (j : nat) :
  (j < List.length a)%nat -> List.length b = List.length a ->
  nth j (Np.zip_with f a b) nan = f (nth j a nan) (nth j b nan).
Proof.
  revert b j. induction a as [|u a IH]; intros [|v b] j Hj Hb; simpl in *;
    try lia.
  destruct j; [reflexivity|]. apply IH; lia.
Qed.

Lemma zip_with2_nth (f : float -> float -> float) (a b : Np.grid) (i : nat) :
  (i < List.length a)%nat -> List.length b = List.length a ->
  nth i (Np.zip_with2 f a b) [] = Np.zip_with f (nth i a []) (nth i b []).
Proof.
  revert b i. induction a as [|u a IH]; intros [|v b] i Hi Hb; simpl in *;
    try lia.
  destruct i; [reflexivity|]. apply IH; lia.
Qed.

Lemma zip_with2_shape (f : float -> float -> float) (a b : Np.grid) (r c : nat) :
  Np.has_shape a r c -> Np.has_shape b r c ->
  Np.has_shape (Np.zip_with2 f a b) r c.
Proof.
  unfold Np.has_shape. revert b r.
  induction a as [|u a IH]; intros [|v b] r [Ha Fa] [Hb Fb]; simpl in *;
    try (subst; discriminate); [split; [assumption | constructor]|].
  inversion Fa; inversion Fb; subst. destruct (IH b (List.length a)) as [Hl Hf];
    [split; auto | split; [congruence | assumption] |].
  split; [simpl; congruence|]. constructor; [|exact Hf].
  apply zip_with_length; congruence.
Qed.

Lemma get_zip_with2 (f : float -> float -> float) (a b : Np.grid) (r c i j : nat) :
  Np.has_shape a r c -> Np.has_shape b r c -> (i < r)%nat -> (j < c)%nat ->
  Np.get (Np.zip_with2 f a b) i j = f (Np.get a i j) (Np.get b i j).
Proof.
  intros Ha Hb Hi Hj. unfold Np.get.
  pose proof (row_length a r c i Ha Hi) as Hra.
  pose proof (row_length b r c i Hb Hi) as Hrb.
  destruct Ha as [Hla _], Hb as [Hlb _].
  rewrite zip_with2_nth by lia. apply zip_with_nth; lia.
Qed.

(** [np.meshgrid]: the shape of both results and what they hold. *)
Lemma meshgrid_shape (x y : Np.vec) :
  Np.has_shape (fst (Np.meshgrid x y)) (List.length y) (List.length x) /\
  Np.has_shape (snd (Np.meshgrid x y)) (List.length y) (List.length x).
Proof.
  unfold Np.meshgrid, Np.has_shape. cbn [fst snd]. rewrite !length_map.
  repeat split; apply Forall_map, Forall_forall; intros; now rewrite ?length_map.
Qed.

Lemma meshgrid_get (x y : Np.vec) (i j : nat) :
  (i < List.length y)%nat -> (j < List.length x)%nat ->
  Np.get (fst (Np.meshgrid x y)) i j = nth j x nan /\
  Np.get (snd (Np.meshgrid x y)) i j = nth i y nan.
Proof.
  intros Hi Hj. unfold Np.meshgrid, Np.get, Np.vec, Np.grid in *.
  cbn [fst snd]. split.
  - now rewrite (nth_map_in (fun _ => x) y i [] nan Hi).
  - rewrite (nth_map_in (fun yi => map (fun _ => yi) x) y i [] nan Hi).
    now rewrite (nth_map_in (fun _ => nth i y nan) x j nan nan Hj).
Qed.

(** The radius at (i, j), for any two axes. *)
Lemma radial_meshgrid_get (x y : Np.vec) (i j : nat) :
  (i < List.length y)%nat -> (j < List.length x)%nat ->
  Np.get (radial (fst (Np.meshgrid x y)) (snd (Np.meshgrid x y))) i j
  = sqrt (nth j x nan * nth j x nan + nth i y nan * nth i y nan) + EPSILON.
Proof.
  intros Hi Hj. destruct (meshgrid_shape x y) as [HX HY].
  destruct (meshgrid_get x y i j Hi Hj) as [EX EY].
  unfold radial.
  rewrite (get_map2 _ _ (List.length y) (List.length x));
    [| apply zip_with2_shape; now apply map2_has_shape | assumption..].
  rewrite (get_zip_with2 _ _ _ (List.length y) (List.length x));
    [| now apply map2_has_shape.. | assumption | assumption].
  rewrite !(get_map2 _ _ (List.length y) (List.length x)) by assumption.
  unfold Np.square. now rewrite EX, EY.
Qed.

Lemma module_globals_eq :
  module_globals
  = mkGlobals x_axis x_axis (fst (Np.meshgrid x_axis x_axis))
              (snd (Np.meshgrid x_axis x_axis))
              (radial (fst (Np.meshgrid x_axis x_axis))
                      (snd (Np.meshgrid x_axis x_axis))).
Proof. vm_compute. reflexivity. Qed.

Lemma x_axis_length : List.length x_axis = 100%nat.
Proof. vm_compute. reflexivity. Qed.

Lemma R_base_get (i j : nat) :
  (i < 100)%nat -> (j < 100)%nat ->
  Np.get R_base i j
  = sqrt (nth j x_axis nan * nth j x_axis nan
          + nth i x_axis nan * nth i x_axis nan) + EPSILON.
Proof.
  intros Hi Hj. unfold R_base. rewrite module_globals_eq. cbn [g_R_base].
  apply radial_meshgrid_get; now rewrite x_axis_length.
Qed.

(** X1. The Base Radial Field is symmetric under transposition:
    [R_base[i][j] = R_base[j][i]], bit for bit. *)
Theorem R_base_transpose_symmetric (i j : nat) :
  (i < 100)%nat -> (j < 100)%nat -> Np.get R_base i j = Np.get R_base j i.
Proof.
  intros Hi Hj. rewrite !R_base_get by assumption.
  now rewrite (float_add_comm (nth j x_axis nan * nth j x_axis nan)).
Qed.

Lemma R_base_transpose_symmetric_witness :
  Np.get R_base 3 97 = Np.get R_base 97 3.
Proof. apply (R_base_transpose_symmetric 3 97); lia. Defined.

Lemma x_axis_increasing : increasing x_axis = true.
Proof. vm_compute. reflexivity. Qed.

Lemma x_axis_within : forallb (within (-20) 20) x_axis = true.
Proof. vm_compute. reflexivity. Qed.

Lemma increasing_spec (v : Np.vec) (i j : nat) :
  increasing v = true -> (i < j)%nat -> (j < List.length v)%nat ->
  (nth i v nan <? nth j v nan) = true.
Proof.
  unfold increasing. intros H Hij Hj. rewrite forallb_forall in H.
  specialize (H i ltac:(apply in_seq; lia)). rewrite forallb_forall in H.
  specialize (H j ltac:(apply in_seq; lia)).
  now rewrite (proj2 (Nat.ltb_lt i j) Hij) in H.
Qed.

(** X2. The grid is the Cartesian product of one axis with itself:
    [X[i][j] = x[j]] and [Y[i][j] = x[i]], where the 100 samples of the axis
    start at -20, end at 20 exactly, stay within [-20, 20] and are strictly
    increasing. *)
Theorem grid_is_cartesian_product (i j : nat) :
  (i < 100)%nat -> (j < 100)%nat ->
  Np.get X i j = nth j x_axis nan /\
  Np.get Y i j = nth i x_axis nan /\
  nth 0 x_axis nan = -20 /\ nth 99 x_axis nan = 20 /\
  within (-20) 20 (nth i x_axis nan) = true /\
  ((i < j)%nat -> (nth i x_axis nan <? nth j x_axis nan) = true).
Proof.
  intros Hi Hj. unfold X, Y. rewrite module_globals_eq. cbn [g_X g_Y].
  destruct (meshgrid_get x_axis x_axis i j) as [EX EY];
    try (rewrite x_axis_length; assumption).
  split; [exact EX|]. split; [exact EY|].
  split; [reflexivity|]. split; [reflexivity|]. split.
  - pose proof x_axis_within as H. rewrite forallb_forall in H.
    apply H, nth_In. now rewrite x_axis_length.
  - intros Hij. apply increasing_spec;
      [apply x_axis_increasing | assumption | now rewrite x_axis_length].
Qed.

Lemma grid_is_cartesian_product_witness :
  Np.get X 3 7 = nth 7 x_axis nan /\
  Np.get Y 3 7 = nth 3 x_axis nan /\
  nth 0 x_axis nan = -20 /\ nth 99 x_axis nan = 20 /\
  within (-20) 20 (nth 3 x_axis nan) = true /\
  ((3 < 7)%nat -> (nth 3 x_axis nan <? nth 7 x_axis nan) = true).
Proof. apply (grid_is_cartesian_product 3 7); lia. Defined.

Lemma R_base_grid_radius : all2 grid_radius R_base = true.
Proof. vm_compute. reflexivity. Qed.

(** X3. Every radius of the Base Radial Field lies strictly between 0.2857
    and 28.2843: no grid point sits at the origin, so the division of the
    field evaluation never meets a zero (or a tiny) divisor. *)
Theorem R_base_bounds (i j : nat) :
  (i < 100)%nat -> (j < 100)%nat ->
  (0.2857 <? Np.get R_base i j) = true /\
  (Np.get R_base i j <? 28.2843) = true.
Proof.
  intros Hi Hj.
  pose proof (all2_get _ _ _ _ i j R_base_grid_radius R_base_shape Hi Hj) as H.
  unfold grid_radius in H. now apply andb_true_iff in H.
Qed.

Lemma R_base_bounds_witness :
  (0.2857 <? Np.get R_base 49 50) = true /\
  (Np.get R_base 49 50 <? 28.2843) = true.
Proof. apply (R_base_bounds 49 50); lia. Defined.

End GridProperties.

(** ** Further properties: the field and the test particle *)

Section FieldProperties.

Local Open Scope float_scope.

Lemma Prim2SF_nan_inv (a : float) : Prim2SF a = S754_nan -> a = nan.
Proof. intros H. apply Prim2SF_inj. now rewrite H. Qed.

Lemma r_sphere_pos_finite : pos_finite r_sphere = true.
Proof. reflexivity. Qed.

Lemma r_sphere_grid_radius : grid_radius r_sphere = true.
Proof. reflexivity. Qed.

(** The clipped quotient is NaN exactly when the mass is. *)
Lemma clipped_quotient_nan (mass r : float) :
  pos_finite r = true ->
  is_nan (Np.maximum (- mass / r) CLIP_VALUE) = is_nan mass.
Proof.
  intros Hr. destruct (pos_finite_spec r Hr) as (m & e & Er).
  assert (Hz : is_nan (- mass / r) = is_nan mass).
  { rewrite !is_nan_spec, div_spec, opp_spec, Er.
    destruct (Prim2SF mass) as [s|s| |s mx ex] eqn:Em; try reflexivity.
    pose proof (SFdiv_signed (negb s) (SFopp (S754_finite s mx ex)) m e
                  eq_refl) as H.
    now destruct (SF64div (SFopp (S754_finite s mx ex)) (S754_finite false m e)). }
  unfold Np.maximum. destruct (is_nan (- mass / r)) eqn:Hn; [now rewrite Hn|].
  rewrite <- Hz. destruct (CLIP_VALUE <? - mass / r); [exact Hn | reflexivity].
Qed.

(** X4. NaN is the only mass that puts NaN on the plot: an element of the
    Curvature Field, and the z of the test particle, is NaN exactly when the
    mass is NaN. *)
Theorem nan_only_from_nan_mass (mass : float) (i j : nat) :
  (i < 100)%nat -> (j < 100)%nat ->
  is_nan (Np.get (curvature R_base mass) i j) = is_nan mass /\
  is_nan (z_sphere_clipped mass) = is_nan mass.
Proof.
  intros Hi Hj. split.
  - rewrite (curvature_get R_base mass 100 100) by (auto using R_base_shape).
    apply clipped_quotient_nan. now apply R_base_get_pos_finite.
  - apply clipped_quotient_nan, r_sphere_pos_finite.
Qed.

Lemma nan_only_from_nan_mass_witness :
  is_nan (Np.get (curvature R_base nan) 0 0) = is_nan nan /\
  is_nan (z_sphere_clipped nan) = is_nan nan.
Proof. apply (nan_only_from_nan_mass nan 0 0); lia. Defined.

(** X5. A zero mass gives a flat surface at zero, unclipped: every element
    is the zero of the opposite sign of the mass, [-0.0] for [0.0]. *)
Theorem zero_mass_flat_field (mass : float) (i j : nat) :
  (mass =? 0) = true -> (i < 100)%nat -> (j < 100)%nat ->
  Np.get (curvature R_base mass) i j = - mass /\
  (Np.get (curvature R_base mass) i j =? 0) = true.
Proof.
  intros Hm Hi Hj.
  rewrite (curvature_get R_base mass 100 100) by (auto using R_base_shape).
  destruct (pos_finite_spec _ (R_base_get_pos_finite i j Hi Hj)) as (m & e & Er).
  rewrite eqb_spec, Prim2SF_zero in Hm. unfold SFeqb in Hm.
  destruct (Prim2SF mass) as [s|s| |s mx ex] eqn:Em;
    try discriminate; try (destruct s; discriminate).
  assert (Hq : - mass / Np.get R_base i j = - mass).
  { apply Prim2SF_inj. rewrite div_spec, !opp_spec, Er, Em.
    now destruct s. }
  rewrite Hq.
  assert (Hmax : Np.maximum (- mass) CLIP_VALUE = - mass).
  { unfold Np.maximum. rewrite is_nan_spec, ltb_spec, opp_spec, Em, Prim2SF_clip.
    reflexivity. }
  rewrite Hmax. split; [reflexivity|].
  rewrite eqb_spec, opp_spec, Em, Prim2SF_zero. reflexivity.
Qed.

Lemma zero_mass_flat_field_witness :
  Np.get (curvature R_base 0) 10 20 = - 0 /\
  (Np.get (curvature R_base 0) 10 20 =? 0) = true.
Proof. apply (zero_mass_flat_field 0 10 20); [reflexivity | lia | lia]. Defined.

(** X6. For every mass >= 0 the z of the test particle lies between the
    floor -15 and 0, hence inside the fixed z range [-15, 5] of the axes. *)
Theorem test_particle_in_range (mass : float) :
  (0 <=? mass) = true ->
  (-15 <=? z_sphere_clipped mass) = true /\
  (z_sphere_clipped mass <=? 0) = true /\
  (z_sphere_clipped mass <=? 5) = true.
Proof.
  intros Hm. unfold z_sphere_clipped, z_sphere.
  destruct (maximum_clip_bounds (- mass / r_sphere)) as [H0 H15].
  { apply nonpos_le_zero, neg_div_nonpos; [exact Hm | exact r_sphere_pos_finite]. }
  split; [exact H15|]. split; [exact H0|].
  rewrite leb_spec in *. unfold SFleb in *.
  change (Prim2SF 5) with (S754_finite false 5629499534213120 (-50)).
  rewrite Prim2SF_zero in H0.
  destruct (Prim2SF (Np.maximum (- mass / r_sphere) CLIP_VALUE))
    as [s|s| |s m e]; try discriminate; try reflexivity;
    destruct s; try discriminate; reflexivity.
Qed.

Lemma test_particle_in_range_witness :
  (-15 <=? z_sphere_clipped 10) = true /\
  (z_sphere_clipped 10 <=? 0) = true /\
  (z_sphere_clipped 10 <=? 5) = true.
Proof. apply (test_particle_in_range 10); reflexivity. Defined.

End FieldProperties.

(** ** Further properties: when the whole surface is clipped *)

Section Saturation.

Local Open Scope Z_scope.

(** Rounding a positive mantissa above the smallest exponent keeps the sign
    and does not lower the magnitude class. *)
Lemma binary_round_aux_magnitude (s : bool) (m e : Z) (l : location) :
  0 < m -> emin < Zdigits2 m + e ->
  match binary_round_aux prec emax s m e l with
  | S754_finite s' q e' => s' = s /\ Zdigits2 m + e <= magnitude q e'
  | S754_infinity s' => s' = s
  | _ => False
  end.
Proof.
  intros Hm He. unfold binary_round_aux.
  pose proof (shr_fexp_pos m e l Hm He) as H1. cbn zeta in H1.
  destruct (shr_fexp prec emax m e l) as [mrs' e']. cbn [fst snd] in H1.
  destruct H1 as [H1 H1'].
  set (m2 := round_nearest_even (shr_m mrs') (loc_of_shr_record mrs')).
  pose proof (round_nearest_even_ge (shr_m mrs') (loc_of_shr_record mrs')) as Hge.
  fold m2 in Hge.
  pose proof (Zdigits2_mono _ _ H1 Hge) as Hd.
  pose proof (shr_fexp_pos m2 e' loc_Exact ltac:(lia) ltac:(lia)) as H2.
  cbn zeta in H2.
  destruct (shr_fexp prec emax m2 e' loc_Exact) as [mrs'' e''].
  cbn [fst snd] in H2. destruct H2 as [H2 H2'].
  destruct (shr_m mrs'') as [|q|q] eqn:Eq; try lia.
  match goal with |- context [if ?c then _ else _] => destruct c end;
    [|reflexivity].
  split; [reflexivity|]. unfold magnitude. lia.
Qed.

Lemma SFdiv_magnitude (s : bool) (m1 m2 : positive) (e1 e2 : Z) :
  emin + prec <= magnitude m1 e1 - magnitude m2 e2 ->
  match SF64div (S754_finite s m1 e1) (S754_finite false m2 e2) with
  | S754_finite s' q e' =>
      s' = s /\ magnitude m1 e1 - magnitude m2 e2 <= magnitude q e'
  | S754_infinity s' => s' = s
  | _ => False
  end.
Proof.
  intros HE. unfold SF64div, SFdiv.
  pose proof (SFdiv_core_pos m1 m2 e1 e2 HE) as H. cbn zeta in H.
  destruct (SFdiv_core_binary prec emax (Zpos m1) e1 (Zpos m2) e2) as [[q e] l].
  cbn [fst snd] in H. destruct H as [Hq Hm].
  replace (xorb s false) with s by now destruct s.
  pose proof (binary_round_aux_magnitude s q e l Hq
                ltac:(unfold emin, prec, emax in *; lia)) as H.
  destruct (binary_round_aux prec emax s q e l) as [s'|s'| |s' q' e'];
    try assumption.
  destruct H as [Hs Hmag]. split; [exact Hs | lia].
Qed.

(** A valid value at or above a positive finite bound is at least as large
    in magnitude. *)
Lemma SFleb_positive_lower_bound (x : spec_float) (m0 : positive) (e0 : Z) :
  valid_binary x = true -> bounded prec emax m0 e0 = true ->
  SFleb (S754_finite false m0 e0) x = true ->
  x = S754_infinity false \/
  exists m e, x = S754_finite false m e /\ magnitude m0 e0 <= magnitude m e.
Proof.
  intros Hv Hv0. apply canonical_digits in Hv0. unfold SFleb.
  destruct x as [s|s| |s m e]; cbn [SFcompare]; try discriminate.
  - destruct s; [discriminate | auto].
  - cbn [valid_binary] in Hv. apply canonical_digits in Hv.
    destruct s; [discriminate|].
    intros H. right. exists m, e. split; [reflexivity|].
    destruct (e0 ?= e) eqn:He.
    + apply Z.compare_eq in He. subst e0.
      assert (Hm : (m0 <= m)%positive).
      { change (Pos.compare_cont Eq m0 m) with (Pos.compare m0 m) in H.
        destruct (Pos.compare_spec m0 m) as [-> | Hlt | Hgt];
          [apply Pos.le_refl | now apply Pos.lt_le_incl | discriminate]. }
      unfold magnitude.
      pose proof (Zdigits2_mono (Zpos m0) (Zpos m) ltac:(lia) ltac:(lia)). lia.
    + rewrite Z.compare_lt_iff in He. unfold magnitude, emin, prec, emax in *. lia.
    + discriminate.
Qed.

(** Of two valid negative finite values, the one of the larger magnitude
    class is the smaller. *)
Lemma SFltb_negative_magnitude (m m0 : positive) (e e0 : Z) :
  bounded prec emax m e = true -> bounded prec emax m0 e0 = true ->
  magnitude m0 e0 < magnitude m e ->
  SFltb (S754_finite true m e) (S754_finite true m0 e0) = true.
Proof.
  intros Hv Hv0 Hmag. apply canonical_digits in Hv, Hv0.
  unfold SFltb. cbn [SFcompare].
  destruct (e ?= e0) eqn:He.
  - apply Z.compare_eq in He. subst e0.
    change (Pos.compare_cont Eq m m0) with (Pos.compare m m0).
    destruct (Pos.compare_spec m m0) as [-> | Hlt | Hgt]; cbn [CompOpp].
    + lia.
    + unfold magnitude in *.
      pose proof (Zdigits2_mono (Zpos m) (Zpos m0) ltac:(lia) ltac:(lia)). lia.
    + reflexivity.
  - rewrite Z.compare_lt_iff in He. unfold magnitude, emin, prec, emax in *. lia.
  - reflexivity.
Qed.

Lemma Prim2SF_saturation_mass :
  Prim2SF SATURATION_MASS = S754_finite false 4503599627370496 (-43).
Proof. reflexivity. Qed.

Lemma Prim2SF_R_MAX :
  Prim2SF R_MAX = S754_finite false 7961322683777208 (-48).
Proof. reflexivity. Qed.

Lemma grid_radius_spec (r : float) :
  grid_radius r = true ->
  exists m e, Prim2SF r = S754_finite false m e /\ magnitude m e <= 5.
Proof.
  unfold grid_radius. rewrite andb_true_iff, !ltb_spec.
  pose proof (Prim2SF_valid r) as Hv. rewrite Prim2SF_R_MAX.
  change (Prim2SF R_MIN) with (S754_finite false 5146713654159003 (-54)).
  unfold SFltb at 1.
  destruct (Prim2SF r) as [s|s| |s m e]; cbn [SFcompare]; intros [H0 H1];
    try discriminate; try (destruct s; discriminate).
  destruct s; [discriminate|]. exists m, e. split; [reflexivity|].
  cbn [valid_binary] in Hv.
  exact (SFltb_positive_bound m 7961322683777208 e (-48) Hv eq_refl H1).
Qed.

(** From mass 512 on, the quotient by a radius of the grid lies below the
    floor, and the clip returns the floor. *)
Lemma saturated_quotient (mass r : float) :
  (SATURATION_MASS <=? mass)%float = true -> grid_radius r = true ->
  Np.maximum (- mass / r) CLIP_VALUE = CLIP_VALUE.
Proof.
  intros Hm Hr. destruct (grid_radius_spec r Hr) as (m2 & e2 & Er & Hm2).
  rewrite leb_spec, Prim2SF_saturation_mass in Hm.
  apply SFleb_positive_lower_bound in Hm; [|apply Prim2SF_valid|reflexivity].
  assert (Hlt : SFltb (Prim2SF (- mass / r)) (Prim2SF CLIP_VALUE) = true).
  { pose proof (Prim2SF_valid (- mass / r)) as Hv.
    rewrite div_spec, opp_spec, Er in *. rewrite Prim2SF_clip.
    destruct Hm as [Ex | (m1 & e1 & Ex & Hm1)]; rewrite Ex in *; [reflexivity|].
    cbn [SFopp negb] in *.
    assert (Hmag : magnitude 4503599627370496 (-43) = 10) by reflexivity.
    pose proof (SFdiv_magnitude true m1 m2 e1 e2
                  ltac:(unfold emin, prec, emax; lia)) as Hd.
    destruct (SF64div (S754_finite true m1 e1) (S754_finite false m2 e2))
      as [s|s| |s q e]; try contradiction.
    - now subst s.
    - destruct Hd as [-> Hq]. cbn [valid_binary] in Hv.
      apply SFltb_negative_magnitude; [exact Hv | reflexivity |].
      change (magnitude 8444249301319680 (-49)) with 4. lia. }
  unfold Np.maximum. rewrite is_nan_spec, ltb_spec.
  unfold SFltb in *. rewrite (SFcompare_antisym (Prim2SF (- mass / r))).
  destruct (Prim2SF (- mass / r)) as [s|s| |s q e];
    try (destruct (SFcompare _ (Prim2SF CLIP_VALUE)) as [[| |]|];
         try discriminate; reflexivity).
  discriminate Hlt.
Qed.

(** X7. From mass 512 on (+inf included) the picture is saturated: every
    element of the Curvature Field, and the z of the test particle, is
    exactly the floor -15. *)
Theorem large_mass_saturates (mass : float) (i j : nat) :
  (512 <=? mass)%float = true -> (i < 100)%nat -> (j < 100)%nat ->
  Np.get (curvature R_base mass) i j = (-15)%float /\
  z_sphere_clipped mass = (-15)%float.
Proof.
  intros Hm Hi Hj. split.
  - rewrite (curvature_get R_base mass 100 100) by (auto using R_base_shape).
    apply saturated_quotient; [exact Hm|].
    exact (all2_get _ _ _ _ i j R_base_grid_radius R_base_shape Hi Hj).
  - apply saturated_quotient; [exact Hm | exact r_sphere_grid_radius].
Qed.

Lemma large_mass_saturates_witness :
  Np.get (curvature R_base 1e6) 0 0 = (-15)%float /\
  z_sphere_clipped 1e6 = (-15)%float.
Proof.
  apply (large_mass_saturates 1e6 0 0); [reflexivity | lia | lia].
Defined.

End Saturation.

(** ** Further properties: requests and the process state *)

Section ServerProperties.

Variable print_figure : Figure -> string -> string -> outcome bytes.

Local Open Scope string_scope.

(** X8. The handler answers every request, whatever the query and whatever
    the renderer does: it never raises, and the status is 200 when the
    renderer returned and 500 when it raised, nothing else. *)
Theorem endpoint_always_answers (req : Request) (w : World) :
  exists resp,
    fst (simulation_endpoint print_figure req w) = Ret resp /\
    (status_code resp = 200%nat \/ status_code resp = 500%nat) /\
    (status_code resp = 200%nat <-> renders print_figure (globals w) req = true) /\
    (status_code resp = 500%nat <-> renders print_figure (globals w) req = false).
Proof.
  rewrite simulation_endpoint_run. unfold renders.
  destruct (print_figure _ "png" "tight") as [png|e].
  - exists (success_response (requested_mass req) png). cbn.
    repeat split; auto; discriminate.
  - exists (error_response e). cbn.
    repeat split; auto; discriminate.
Qed.

(** X9. A request answered with 200 leaves pyplot's registry as it was (the
    figure that was opened is closed again) and the grid as it was, and the
    handler has printed no line on stdout and no traceback. *)
Theorem success_leaves_no_trace (req : Request) (w w' : World) (resp : Response) :
  simulation_endpoint print_figure req w = (Ret resp, w') ->
  status_code resp = 200%nat ->
  figs w' = figs w /\ globals w' = globals w /\
  stdout w' = stdout w /\ tracebacks w' = tracebacks w.
Proof.
  rewrite simulation_endpoint_run.
  destruct (print_figure _ "png" "tight") as [png|e]; intros H Hs.
  - injection H as _ <-. repeat split.
  - injection H as <- _. discriminate Hs.
Qed.

Lemma serve_cons (req : Request) (reqs : list Request) (w : World) :
  serve print_figure (req :: reqs) w
  = (fst (simulation_endpoint print_figure req w)
       :: fst (serve print_figure reqs
                 (snd (simulation_endpoint print_figure req w))),
     snd (serve print_figure reqs
            (snd (simulation_endpoint print_figure req w)))).
Proof.
  cbn [serve]. destruct (simulation_endpoint print_figure req w) as [r w1].
  cbn [fst snd]. now destruct (serve print_figure reqs w1).
Qed.

(** One request: what it adds to the registry and to the two streams. *)
Lemma endpoint_step (req : Request) (w : World) :
  let w' := snd (simulation_endpoint print_figure req w) in
  let k := if renders print_figure (globals w) req then 0%nat else 1%nat in
  globals w' = globals w /\
  (exists new, figs w' = new ++ figs w /\ List.length new = k /\
               Forall (fun kf => (fold_right Nat.max 0 (map fst (figs w)) < fst kf)%nat) new)%list /\
  (exists out, stdout w' = stdout w ++ out /\ List.length out = k)%list /\
  (exists err, tracebacks w' = tracebacks w ++ err /\ List.length err = k)%list.
Proof.
  rewrite simulation_endpoint_run. unfold renders.
  destruct (print_figure _ "png" "tight") as [png|e]; cbn [snd];
    unfold world_after_error; cbn [globals figs stdout tracebacks].
  - split; [reflexivity|]. split; [exists []; auto|].
    split; exists []; now rewrite app_nil_r.
  - split; [reflexivity|]. split.
    + eexists [_]. repeat split. constructor; [|constructor].
      unfold next_num. cbn [fst]. lia.
    + split; eexists [_]; split; reflexivity.
Qed.

(** X10. Over any sequence of requests served from any state, pyplot's
    figure registry, the lines the handler printed on stdout and the
    tracebacks it printed each grow by exactly one entry per request whose
    rendering raised, and the figures that were open before are all still
    there: nothing is ever closed but the figure of a request that
    succeeded. *)
Theorem failed_requests_accumulate (reqs : list Request) (w : World) :
  let w' := snd (serve print_figure reqs w) in
  let n := failures print_figure (globals w) reqs in
  (exists new, figs w' = new ++ figs w /\ List.length new = n)%list /\
  List.length (stdout w') = (List.length (stdout w) + n)%nat /\
  List.length (tracebacks w') = (List.length (tracebacks w) + n)%nat.
Proof.
  revert w. induction reqs as [|req reqs IH]; intros w.
  - cbn. split; [exists []; auto|]. split; lia.
  - rewrite serve_cons. cbn [snd].
    destruct (endpoint_step req w) as (Hg & (new1 & Hf1 & Hl1 & _)
                                        & (out & Ho & Hlo) & (err & He & Hle)).
    specialize (IH (snd (simulation_endpoint print_figure req w))).
    cbn zeta in IH. rewrite Hg in IH.
    destruct IH as ((new2 & Hf2 & Hl2) & Hso & Hse).
    unfold failures in *. cbn [filter].
    destruct (renders print_figure (globals w) req); cbn [negb List.length] in *.
    + split; [|split].
      * exists (new2 ++ new1)%list. rewrite Hf2, Hf1, app_assoc, length_app.
        split; [reflexivity | lia].
      * rewrite Hso, Ho, length_app. lia.
      * rewrite Hse, He, length_app. lia.
    + split; [|split].
      * exists (new2 ++ new1)%list. rewrite Hf2, Hf1, app_assoc, length_app.
        split; [reflexivity | lia].
      * rewrite Hso, Ho, length_app. lia.
      * rewrite Hse, He, length_app. lia.
Qed.



Lemma endpoint_keeps_numbers_distinct (req : Request) (w : World) :
  NoDup (map fst (figs w)) ->
  NoDup (map fst (figs (snd (simulation_endpoint print_figure req w)))).
Proof.
  intros Hn. rewrite simulation_endpoint_run.
  destruct (print_figure _ "png" "tight") as [png|e]; cbn [snd]; [exact Hn|].
  unfold world_after_error. cbn [figs map fst]. constructor; [|exact Hn].
  intros Hin. apply in_map_iff in Hin. destruct Hin as (kf & Hk & Hin).
  apply nums_below_next in Hin. lia.
Qed.

(** X12. The figure numbers in pyplot's registry stay pairwise distinct
    through any sequence of requests: a new figure always gets a number
    that no open figure has, so closing it by number cannot close a figure
    that an earlier request left behind. *)
Theorem figure_numbers_stay_distinct (reqs : list Request) (w : World) :
  NoDup (map fst (figs w)) ->
  NoDup (map fst (figs (snd (serve print_figure reqs w)))).
Proof.
  revert w. induction reqs as [|req reqs IH]; intros w Hn; [exact Hn|].
  rewrite serve_cons. cbn [snd]. apply IH.
  now apply endpoint_keeps_numbers_distinct.
Qed.

Lemma first_value_filter (q : list (string * string)) :
  first_value "mass" (firstn 1 (filter is_mass q)) = first_value "mass" q.
Proof.
  induction q as [|[k v] q IH]; [reflexivity|].
  cbn [filter]. unfold is_mass at 1. cbn [fst first_value].
  destruct (String.eqb k "mass") eqn:Hk.
  - cbn [firstn first_value]. now rewrite Hk.
  - exact IH.
Qed.

(** X13. Of the whole query string only the first [mass] entry counts:
    other parameters and later [mass] entries change nothing, and the mass
    used is what [float] makes of that entry, the default 10.0 when there is
    none or when [float] rejects it. *)
Theorem only_first_mass_counts (q : list (string * string)) (w : World) :
  simulation_endpoint print_figure (mkRequest q) w
  = simulation_endpoint print_figure
      (mkRequest (firstn 1 (filter is_mass q))) w /\
  requested_mass (mkRequest q)
  = match filter is_mass q with
    | (_, text) :: _ =>
        match PyFloat.py_float text with
        | Some v => v
        | None => 10%float
        end
    | [] => 10%float
    end.
Proof.
  assert (Hm : requested_mass (mkRequest q)
               = requested_mass (mkRequest (firstn 1 (filter is_mass q)))).
  { unfold requested_mass, args_get. cbn [args].
    now rewrite first_value_filter. }
  split.
  - now rewrite !simulation_endpoint_run, Hm.
  - rewrite Hm. unfold requested_mass, args_get. cbn [args].
    destruct (filter is_mass q) as [|[k text] rest] eqn:Hf; [reflexivity|].
    assert (Hk : is_mass (k, text) = true).
    { assert (Hin : In (k, text) (filter is_mass q)) by (rewrite Hf; now left).
      now apply filter_In in Hin. }
    unfold is_mass in Hk. cbn [fst] in Hk.
    cbn [firstn first_value]. now rewrite Hk.
Qed.

(** X14. A request whose rendering raises is answered with status 500 and
    a body of exactly two fields, the status and the text of the exception
    as message, with no image; the handler prints the same text on stdout
    after the prefix "Error during plot generation: ", and the traceback of
    the exception. *)
Theorem failure_is_reported (req : Request) (w : World) (e : exn) :
  print_figure (drawn_figure (globals w) (requested_mass req)) "png" "tight"
  = Raise e ->
  let '(r, w') := simulation_endpoint print_figure req w in
  r = Ret (mkResponse 500 [("status", JString "error");
                           ("message", JString (exn_str e))]) /\
  field "image_data" [("status", JString "error");
                      ("message", JString (exn_str e))] = None /\
  stdout w'
  = (stdout w ++ [("Error during plot generation: " ++ exn_str e)%string])%list /\
  tracebacks w' = (tracebacks w ++ [e])%list.
Proof.
  intros He. rewrite simulation_endpoint_run, He. repeat split.
Qed.

End ServerProperties.

(** X15. The pipeline consults the renderer on one figure only, the one for
    the requested mass, with the format "png" and the tight bounding box:
    two renderers that agree on it give the same result and the same
    state. *)
Theorem renderer_sees_one_figure
  (print1 print2 : Figure -> string -> string -> outcome bytes)
  (mass : float) (w : World) :
  print1 (drawn_figure (globals w) mass) "png" "tight"
  = print2 (drawn_figure (globals w) mass) "png" "tight" ->
  generate_plot_image print1 mass w = generate_plot_image print2 mass w.
Proof.
  intros H. now rewrite !generate_plot_image_run, H.
Qed.

Lemma renderer_sees_one_figure_witness :
  generate_plot_image sample_renderer 10 initial_world
  = generate_plot_image (fun _ _ _ => Ret png_signature) 10 initial_world.
Proof.
  apply (renderer_sees_one_figure sample_renderer
           (fun _ _ _ => Ret png_signature) 10 initial_world).
  reflexivity.
Defined.

Lemma failure_is_reported_witness :
  let '(r, w') := simulation_endpoint failing_renderer (mkRequest [])
                    initial_world in
  r = Ret (mkResponse 500 [("status", JString "error");
                           ("message", JString "cannot allocate the canvas")]) /\
  field "image_data" [("status", JString "error");
                      ("message", JString "cannot allocate the canvas")] = None /\
  stdout w'
  = (stdout initial_world
     ++ ["Error during plot generation: cannot allocate the canvas"])%list /\
  tracebacks w'
  = (tracebacks initial_world ++ [Exn "cannot allocate the canvas"])%list.
Proof.
  apply (failure_is_reported failing_renderer (mkRequest []) initial_world
           (Exn "cannot allocate the canvas")).
  reflexivity.
Defined.

Lemma success_leaves_no_trace_witness :
  figs initial_world = figs initial_world /\
  globals initial_world = globals initial_world /\
  stdout initial_world = stdout initial_world /\
  tracebacks initial_world = tracebacks initial_world.
Proof.
  apply (success_leaves_no_trace sample_renderer
           (mkRequest [("mass", "10")]%string) initial_world initial_world
           (success_response 10 png_signature));
    vm_compute; reflexivity.
Defined.

Lemma figure_numbers_stay_distinct_witness :
  NoDup (map fst (figs (snd (serve failing_renderer
                               [mkRequest []; mkRequest []] initial_world)))).
Proof.
  apply (figure_numbers_stay_distinct failing_renderer
           [mkRequest []; mkRequest []] initial_world).
  vm_compute. constructor.
Defined.


(** ** Further properties: the data URI *)

Section DataUriProperties.

Import Base64.

Ltac euclid := zify; Z.to_euclidean_division_equations; lia.

Lemma b64_char_char (n : N) : (n < 64)%N -> b64_char (char n) = true.
Proof.
  intros H. unfold b64_char. now rewrite index_char.
Qed.

Lemma b64_char_pad : b64_char pad = true.
Proof. reflexivity. Qed.

Lemma b64encode_shape_below (n : nat) (bs : bytes) :
  (List.length bs < n)%nat ->
  String.length (b64encode bs) = (4 * ((List.length bs + 2) / 3))%nat /\
  Forall (fun c => b64_char c = true) (list_ascii_of_string (b64encode bs)).
Proof.
  revert bs. induction n as [|n IH]; intros bs Hlen; [lia|].
  destruct bs as [|a [|b [|c rest]]].
  - split; [reflexivity | constructor].
  - pose proof (N_ascii_bounded a) as Ha.
    split; [reflexivity|]. cbn [b64encode list_ascii_of_string].
    repeat constructor; try apply b64_char_pad; apply b64_char_char; euclid.
  - pose proof (N_ascii_bounded a) as Ha. pose proof (N_ascii_bounded b) as Hb.
    split; [reflexivity|]. cbn [b64encode list_ascii_of_string].
    repeat constructor; try apply b64_char_pad; apply b64_char_char; euclid.
  - pose proof (N_ascii_bounded a) as Ha. pose proof (N_ascii_bounded b) as Hb.
    pose proof (N_ascii_bounded c) as Hc.
    destruct (IH rest) as [Hl Hf]; [cbn [List.length] in Hlen; lia|].
    cbn [b64encode list_ascii_of_string String.length List.length]. split.
    + rewrite Hl.
      replace (S (S (S (List.length rest))) + 2)%nat
        with ((List.length rest + 2) + 1 * 3)%nat by lia.
      rewrite Nat.div_add by lia. lia.
    + repeat (constructor; [apply b64_char_char; euclid|]). exact Hf.
Qed.

Lemma string_length_append (s t : string) :
  String.length (s ++ t) = (String.length s + String.length t)%nat.
Proof. induction s as [|c s IH]; cbn; [reflexivity | now rewrite IH]. Qed.

Lemma string_append_cancel (p s t : string) : (p ++ s = p ++ t)%string -> s = t.
Proof.
  induction p as [|c p IH]; cbn; intros H; [exact H|].
  injection H as H. now apply IH.
Qed.

(** X16. The data URI of a PNG of n bytes is 22 + 4 * ceil(n / 3)
    characters long, and after the prefix it holds only characters of the
    base64 alphabet and the padding sign. *)
Theorem data_uri_shape (png : bytes) :
  String.length (DATA_URI_PREFIX ++ b64encode png)
  = (22 + 4 * ((List.length png + 2) / 3))%nat /\
  Forall (fun c => b64_char c = true) (list_ascii_of_string (b64encode png)).
Proof.
  destruct (b64encode_shape_below (S (List.length png)) png) as [Hl Hf]; [lia|].
  split; [|exact Hf]. now rewrite string_length_append, Hl.
Qed.

(** X17. The data URI determines the picture: two PNG byte strings with the
    same data URI are the same bytes. *)
Theorem data_uri_injective (png1 png2 : bytes) :
  (DATA_URI_PREFIX ++ b64encode png1 = DATA_URI_PREFIX ++ b64encode png2)%string ->
  png1 = png2.
Proof.
  intros H. apply string_append_cancel in H.
  pose proof (b64decode_encode png1) as H1. rewrite H, b64decode_encode in H1.
  now injection H1.
Qed.

Lemma data_uri_injective_witness : png_signature = png_signature.
Proof. apply (data_uri_injective png_signature png_signature). reflexivity. Defined.

End DataUriProperties.

(** ** Further properties: what [float] accepts *)

Section FloatTextProperties.

Import PyFloat.

Lemma drop_underscores_no_digit (prev : ascii) (s s' : list ascii) :
  drop_underscores prev s = Some s' -> no_digit s -> no_digit s'.
Proof.
  revert prev s'. induction s as [|c s IH]; intros prev s' H Hn; cbn in H.
  - destruct (is_underscore prev); [discriminate|]. injection H as <-. constructor.
  - inversion Hn as [|c0 s0 Hc Hs]; subst.
    destruct (is_underscore c).
    + destruct (is_digit prev); [|discriminate]. now apply (IH c).
    + destruct (is_underscore prev && negb (is_digit c)); [discriminate|].
      destruct (drop_underscores c s) as [t|] eqn:Ht; [|discriminate].
      injection H as <-. constructor; [exact Hc|]. now apply (IH c).
Qed.

Lemma lstrip_no_digit (s : list ascii) : no_digit s -> no_digit (lstrip s).
Proof.
  induction s as [|c s IH]; intros Hn; [exact Hn|]. cbn.
  inversion Hn; subst. destruct (is_space c); auto.
Qed.

Lemma strip_no_digit (s : list ascii) : no_digit s -> no_digit (strip s).
Proof.
  intros Hn. unfold strip. apply Forall_rev, lstrip_no_digit, Forall_rev.
  now apply lstrip_no_digit.
Qed.

Lemma sign_no_digit (s : list ascii) : no_digit s -> no_digit (snd (sign s)).
Proof.
  intros Hn. destruct s as [|c s]; [exact Hn|]. cbn.
  inversion Hn; subst.
  destruct (code c =? 45)%Z; [assumption|].
  destruct (code c =? 43)%Z; assumption.
Qed.

Lemma digits_no_digit (s : list ascii) (acc n : Z) :
  no_digit s -> digits s acc n = (acc, n, s).
Proof.
  intros Hn. destruct s as [|c s]; [reflexivity|]. cbn.
  inversion Hn as [|c0 s0 Hc Hs]; subst. now rewrite Hc.
Qed.

Lemma number_no_digit (s : list ascii) : no_digit s -> number s = None.
Proof.
  intros Hn. unfold number. rewrite digits_no_digit by assumption.
  destruct s as [|c s]; [reflexivity|].
  inversion Hn as [|c0 s0 Hc Hs]; subst.
  destruct (code c =? 46)%Z; [|reflexivity].
  now rewrite digits_no_digit by assumption.
Qed.

Lemma ascii_code (ch : N) : (ch < 256)%N -> code (ascii_of_N ch) = Z.of_N ch.
Proof. intros H. unfold code. now rewrite N_ascii_embedding. Qed.

Lemma not_decimal_not_digit (ch : N) :
  (ch < 256)%N -> to_decimal ch = None -> is_digit (ascii_of_N ch) = false.
Proof.
  intros Hlt H. unfold is_digit. rewrite ascii_code by assumption.
  unfold to_decimal in H.
  destruct ((48 <=? ch) && (ch <=? 57))%N eqn:Hd; [discriminate|].
  rewrite andb_false_iff, !N.leb_gt in Hd.
  apply andb_false_iff. rewrite !Z.leb_gt. lia.
Qed.

Lemma transform_no_digit (cps : list N) :
  Forall (fun ch => to_decimal ch = None) cps -> no_digit (transform cps).
Proof.
  induction 1 as [|ch r Hch Hr IH]; cbn [transform]; [constructor|].
  destruct (ch <? 127)%N eqn:Hlt.
  - apply N.ltb_lt in Hlt. constructor; [|exact IH].
    apply not_decimal_not_digit; [lia | exact Hch].
  - destruct (is_unicode_space ch); [constructor; [reflexivity | exact IH]|].
    rewrite Hch. repeat constructor.
Qed.

Lemma to_ascii_no_digit (cps : list N) :
  Forall (fun ch => to_decimal ch = None) cps -> no_digit (to_ascii cps).
Proof.
  intros H. unfold to_ascii.
  destruct (forallb (fun ch => ch <? 128)%N cps) eqn:Ha;
    [|now apply transform_no_digit].
  rewrite forallb_forall in Ha. apply Forall_map, Forall_forall.
  intros ch Hin. rewrite Forall_forall in H.
  apply not_decimal_not_digit; [|now apply H].
  specialize (Ha ch Hin). apply N.ltb_lt in Ha. lia.
Qed.

(** [float] on the edges of its character classes: the file separator is no
    white space for it, the no-break space is, and the digits of other
    scripts are digits. *)
Example float_rejects_file_separator :
  py_float (String (ascii_of_nat 28) "5") = None.
Proof. reflexivity. Qed.

Example float_strips_no_break_space :
  py_float (String (ascii_of_nat 194) (String (ascii_of_nat 160) "5")) = Some 5%float.
Proof. vm_compute. reflexivity. Qed.

Example float_reads_arabic_digits :
  py_float (String (ascii_of_nat 217) (String (ascii_of_nat 161)
             (String (ascii_of_nat 217) (String (ascii_of_nat 162) ""))))
  = Some 12%float.
Proof. vm_compute. reflexivity. Qed.

(** X18. A mass text in which no character is a decimal digit (of any
    script) is never read as a finite number: [float] rejects it (and the
    endpoint then uses the default mass) or reads it as an infinity or as
    NaN. *)
Theorem digitless_text_is_not_a_number (text : string) :
  no_decimal_digit text ->
  py_float text = None \/ py_float text = Some infinity \/
  py_float text = Some neg_infinity \/ py_float text = Some nan.
Proof.
  intros Hn. unfold py_float.
  destruct (Utf8.code_points text) as [cps|] eqn:Hc; [|now left].
  specialize (Hn cps Hc). apply to_ascii_no_digit in Hn.
  unfold float_of_ascii.
  destruct (drop_underscores Ascii.zero (to_ascii cps)) as [s|] eqn:Hs;
    [|now left].
  apply drop_underscores_no_digit in Hs; [|exact Hn].
  apply strip_no_digit, sign_no_digit in Hs.
  destruct (sign (strip s)) as [neg body]. cbn [snd] in Hs.
  destruct (String.eqb _ "inf" || String.eqb _ "infinity").
  - destruct neg; auto.
  - destruct (String.eqb _ "nan"); [auto|].
    rewrite number_no_digit by assumption. now left.
Qed.

Lemma digitless_text_is_not_a_number_witness :
  py_float "abc" = None \/ py_float "abc" = Some infinity \/
  py_float "abc" = Some neg_infinity \/ py_float "abc" = Some nan.
Proof.
  apply (digitless_text_is_not_a_number "abc").
  intros cps H. vm_compute in H. injection H as <-. repeat constructor.
Defined.

End FloatTextProperties.
